(** * pmpstat.py: the mpstat log to CSV pipeline

    A shallow embedding of [src/pmpstat.py].  The script captures the output
    of [mpstat -P ALL 1] in a log file and then runs four stages, each of which
    reads a CSV file and writes one (in [__main__] always the same path):

      convert_to_csv -> remove_cpu_rows -> sort_cpu_data -> process_file

    Conventions of the model.
    - Text is ASCII ([mpstat] is run with [LANG=C]); a Python [str] is a
      [string], whitespace and digits are the ASCII ones (a character above
      127 is an ordinary one, neither blank nor digit).
    - A CSV file is the list of its rows as [csv.writer] wrote them, a row
      the list of its fields.  [csv.reader] gives the rows back, with two
      provisos that are part of the model: a field longer than
      [csv.field_size_limit()] makes the reader raise, and through a file
      opened without [newline=''] (as [remove_cpu_rows] opens it) a carriage
      return inside a field is read as a line feed.
    - The interpreter runs with its defaults: [csv.field_size_limit()] is
      131072 and [sys.get_int_max_str_digits()] is 4300.
    - Every stage wraps its body in [try: ... except Exception: sys.exit(1)];
      a raised exception is [None] in the pure helpers and ends the process
      with exit code 1 in the stages.
    - The external process that [measure_cpu_usage] starts is not run: what
      it prints and the code it returns are a parameter of the model. *)

From Stdlib Require Import List String Ascii ZArith Lia Bool Arith Sorted Permutation.
From Stdlib Require Import Numbers.DecimalString Numbers.DecimalPos Numbers.DecimalZ.
From Stdlib Require Numbers.DecimalFacts.
Import ListNotations.
Open Scope string_scope.
Open Scope list_scope.
Open Scope nat_scope.

(** ** The Python built-ins the script relies on *)

Module Py.

(** [str.isspace] on one ASCII character: TAB, LF, VT, FF, CR, the four
    separators 0x1c-0x1f and the blank. *)
Definition isspace (c : ascii) : bool :=
  let n := nat_of_ascii c in
  ((9 <=? n) && (n <=? 13)) || ((28 <=? n) && (n <=? 32)).

(** [str.isdigit] on one ASCII character. *)
Definition isdigit (c : ascii) : bool :=
  let n := nat_of_ascii c in (48 <=? n) && (n <=? 57).

Fixpoint lstrip (s : string) : string :=
  match s with
  | String c r => if isspace c then lstrip r else s
  | EmptyString => EmptyString
  end.

Fixpoint rstrip (s : string) : string :=
  match s with
  | EmptyString => EmptyString
  | String c r =>
      match rstrip r with
      | EmptyString => if isspace c then EmptyString else String c EmptyString
      | r' => String c r'
      end
  end.

(** [s.strip()] *)
Definition strip (s : string) : string := rstrip (lstrip s).

(** [s.startswith(p)] *)
Definition startswith (p s : string) : bool := String.prefix p s.

(** [len(s)] *)
Fixpoint len (s : string) : Z :=
  match s with
  | EmptyString => 0%Z
  | String _ r => Z.succ (len r)
  end.

(** [s.split()]: the maximal runs of non-whitespace characters.  [cur] is
    the token being read, if any. *)
Fixpoint split_from (cur : option string) (s : string) : list string :=
  match s with
  | EmptyString => match cur with Some t => [t] | None => [] end
  | String c r =>
      if isspace c then
        match cur with
        | Some t => t :: split_from None r
        | None => split_from None r
        end
      else
        split_from (Some (match cur with
                          | Some t => (t ++ String c EmptyString)%string
                          | None => String c EmptyString
                          end)) r
  end.

Definition split (s : string) : list string := split_from None s.

(** [str(n)] for an [int]. *)
Definition str_of_int (z : Z) : string := NilZero.string_of_int (Z.to_int z).

(** The digits of an integer literal as [int()] accepts them: decimal digits
    with single underscores between digits.  [prev] tells whether the
    previous character was a digit; the result is the digits alone. *)
Fixpoint int_digits (prev : bool) (s : string) : option string :=
  match s with
  | EmptyString => if prev then Some EmptyString else None
  | String c r =>
      if isdigit c then option_map (String c) (int_digits true r)
      else if (Ascii.eqb c "_" && prev)%bool then
        match r with
        | EmptyString => None
        | _ => int_digits false r
        end
      else None
  end.

(** [sys.get_int_max_str_digits()]: a literal with more digits than this
    (underscores and sign not counted) is refused. *)
Definition max_str_digits : Z := 4300.

Definition nat_literal (s : string) : option Z :=
  match int_digits false s with
  | Some ds =>
      if (len ds <=? max_str_digits)%Z
      then option_map Z.of_uint (NilEmpty.uint_of_string ds)
      else None
  | None => None
  end.

(** The whitespace [int] skips around the literal of an ASCII [str]: TAB,
    LF, VT, FF, CR and the blank, but not the separators 0x1c-0x1f that
    [str.strip] drops. *)
Definition c_isspace (c : ascii) : bool :=
  let n := nat_of_ascii c in ((9 <=? n) && (n <=? 13)) || (n =? 32).

Fixpoint skip_space (s : string) : string :=
  match s with
  | String c r => if c_isspace c then skip_space r else s
  | EmptyString => EmptyString
  end.

Fixpoint drop_space (s : string) : string :=
  match s with
  | EmptyString => EmptyString
  | String c r =>
      match drop_space r with
      | EmptyString => if c_isspace c then EmptyString else String c EmptyString
      | r' => String c r'
      end
  end.

(** [int(s)] for a [str]: the whitespace around is skipped, then come an
    optional sign and a literal; [None] stands for [ValueError]. *)
Definition int (s : string) : option Z :=
  match drop_space (skip_space s) with
  | EmptyString => None
  | String c r =>
      if Ascii.eqb c "-" then option_map Z.opp (nat_literal r)
      else if Ascii.eqb c "+" then nat_literal r
      else nat_literal (String c r)
  end.

Definition digit_val (c : ascii) : option Z :=
  if isdigit c then Some (Z.of_nat (nat_of_ascii c) - 48)%Z else None.

(** One numeric field of a [strptime] format: the regular expression tries
    two digits first, and takes them when their value is at most [hi],
    otherwise one digit.  Returns the value and the rest of the text. *)
Definition time_field (hi : Z) (s : string) : option (Z * string) :=
  match s with
  | EmptyString => None
  | String a EmptyString =>
      match digit_val a with
      | Some x => Some (x, EmptyString)
      | None => None
      end
  | String a (String b r) =>
      match digit_val a, digit_val b with
      | Some x, Some y =>
          if (10 * x + y <=? hi)%Z then Some (10 * x + y, r)%Z
          else Some (x, String b r)
      | Some x, None => Some (x, String b r)
      | None, _ => None
      end
  end.

Definition expect_colon (s : string) : option string :=
  match s with
  | String ":" r => Some r
  | _ => None
  end.

(** [datetime.strptime(s, '%H:%M:%S')], as the number of seconds after
    1900-01-01 00:00:00 (the date [strptime] fills in).  The format's
    regular expression lets [%S] reach 61, the [datetime] constructor then
    refuses a second above 59; text left over is refused too.  [None] stands
    for [ValueError]. *)
Definition strptime (s : string) : option Z :=
  match time_field 23 s with
  | None => None
  | Some (h, s1) =>
  match expect_colon s1 with
  | None => None
  | Some s2 =>
  match time_field 59 s2 with
  | None => None
  | Some (m, s3) =>
  match expect_colon s3 with
  | None => None
  | Some s4 =>
  match time_field 61 s4 with
  | Some (sec, EmptyString) =>
      if (sec <=? 59)%Z then Some (h * 3600 + m * 60 + sec)%Z else None
  | _ => None
  end end end end end.

(** [repr] of a [str], needed for [str] of a list of strings. *)
Definition dquote : ascii := ascii_of_nat 34.
Definition squote : ascii := ascii_of_nat 39.
Definition backslash : ascii := ascii_of_nat 92.

Fixpoint contains (c : ascii) (s : string) : bool :=
  match s with
  | EmptyString => false
  | String a r => Ascii.eqb a c || contains c r
  end.

Definition hex_digit (n : nat) : ascii :=
  if n <? 10 then ascii_of_nat (48 + n) else ascii_of_nat (87 + n).

Definition repr_char (quote c : ascii) : string :=
  let n := nat_of_ascii c in
  let esc x := String backslash (String x EmptyString) in
  if (Ascii.eqb c quote || Ascii.eqb c backslash)%bool then esc c
  else if n =? 9 then esc "t"%char
  else if n =? 10 then esc "n"%char
  else if n =? 13 then esc "r"%char
  else if ((n <? 32) || (n =? 127) || ((128 <=? n) && (n <=? 160)) || (n =? 173))%bool
  then String backslash
         (String "x" (String (hex_digit (n / 16)) (String (hex_digit (n mod 16)) EmptyString)))
  else String c EmptyString.

Fixpoint repr_body (quote : ascii) (s : string) : string :=
  match s with
  | EmptyString => EmptyString
  | String c r => (repr_char quote c ++ repr_body quote r)%string
  end.

Definition repr (s : string) : string :=
  let quote := if (contains squote s && negb (contains dquote s))%bool
               then dquote else squote in
  String quote (repr_body quote s ++ String quote EmptyString)%string.

(** [str(l)] for a list of strings. *)
Definition str_of_list (l : list string) : string :=
  ("[" ++ String.concat ", " (map repr l) ++ "]")%string.

(** Text as [open(path, 'r')] delivers it: with universal newlines a CR LF
    and a CR on its own both come out as LF. *)
Definition CR : ascii := ascii_of_nat 13.
Definition LF : ascii := ascii_of_nat 10.

Definition starts_with_LF (s : string) : bool :=
  match s with
  | String c _ => Ascii.eqb c LF
  | EmptyString => false
  end.

Fixpoint universal_newlines (s : string) : string :=
  match s with
  | EmptyString => EmptyString
  | String c r =>
      if Ascii.eqb c CR then
        if starts_with_LF r then universal_newlines r
        else String LF (universal_newlines r)
      else String c (universal_newlines r)
  end.

End Py.

(** ** Files, and stages that may end the process *)

Definition row := list string.
Definition table := list row.

(** The two files of a run: the captured log, read line by line, and the
    CSV file, which does not exist before the first stage writes it. *)
Record files := { log_file : list string; csv_file : option table }.

(** A stage either returns to [__main__] or leaves through [sys.exit]. *)
Inductive outcome (A : Type) :=
| Returned (a : A)
| Exited (code : Z).
Arguments Returned {A} a.
Arguments Exited {A} code.

Definition prog (A : Type) := files -> outcome A * files.

Definition ret {A} (a : A) : prog A := fun f => (Returned a, f).

Definition bind {A B} (m : prog A) (k : A -> prog B) : prog B :=
  fun f => match m f with
           | (Returned a, f1) => k a f1
           | (Exited c, f1) => (Exited c, f1)
           end.

Declare Scope prog_scope.
Delimit Scope prog_scope with prog.
Notation "x <- m ;; k" := (bind m (fun x => k))
  (at level 61, m at next level, right associativity) : prog_scope.
Notation "m ;; k" := (bind m (fun _ => k))
  (at level 61, right associativity) : prog_scope.

(** [except Exception as e: print(...); sys.exit(1)] *)
Definition sys_exit {A} (code : Z) : prog A := fun f => (Exited code, f).

(** A helper that raised ([None]) reaches the handler of the stage. *)
Definition attempt {A} (o : option A) : prog A :=
  match o with
  | Some a => ret a
  | None => sys_exit 1
  end.

(** [infile.readlines()] on the log. *)
Definition read_log : prog (list string) := fun f => (Returned (log_file f), f).

(** [csv.field_size_limit()]: [csv.reader] raises [csv.Error] on a field
    with more characters than this. *)
Definition field_size_limit : Z := 131072.

Definition fits (s : string) : bool := (Py.len s <=? field_size_limit)%Z.

Definition fields_fit (t : table) : bool := forallb (forallb fits) t.

(** Reading all the rows through [csv.reader]. *)
Definition csv_reader (t : table) : option table :=
  if fields_fit t then Some t else None.

(** The rows as they come through a file opened without [newline='']. *)
Definition text_mode (t : table) : table :=
  map (map Py.universal_newlines) t.

(** [open(input_file, 'r', ...)]: a missing file raises. *)
Definition open_r : prog table := fun f => attempt (csv_file f) f.

(** [list(csv.reader(infile))] on a file opened with [newline='']. *)
Definition read_csv : prog table :=
  bind open_r (fun t => attempt (csv_reader t)).

(** The same on a file opened with [open(input_file, 'r')]. *)
Definition read_csv_text : prog table :=
  bind open_r (fun t => attempt (csv_reader (text_mode t))).

(** [open(output_file, 'w')] truncates, [writer.writerow] appends; the
    [with] block closes the file whether or not its body raises. *)
Definition open_w : prog unit :=
  fun f => (Returned tt, {| log_file := log_file f; csv_file := Some [] |}).

Definition writerow (r : row) : prog unit :=
  fun f => match csv_file f with
           | Some t => (Returned tt, {| log_file := log_file f; csv_file := Some (t ++ [r]) |})
           | None => (Exited 1%Z, f)
           end.

Fixpoint writerows (rs : list row) : prog unit :=
  match rs with
  | [] => ret tt
  | r :: rest => (writerow r ;; writerows rest)%prog
  end.

(** The option monad of the helpers. *)
Definition obind {A B} (o : option A) (k : A -> option B) : option B :=
  match o with
  | Some a => k a
  | None => None
  end.

Notation "x <-? o ;; k" := (obind o (fun x => k))
  (at level 61, o at next level, right associativity).

Fixpoint omap {A B} (f : A -> option B) (l : list A) : option (list B) :=
  match l with
  | [] => Some []
  | a :: rest => b <-? f a ;; bs <-? omap f rest ;; Some (b :: bs)
  end.

Fixpoint ofilter {A} (p : A -> option bool) (l : list A) : option (list A) :=
  match l with
  | [] => Some []
  | a :: rest =>
      b <-? p a ;; keep <-? ofilter p rest ;; Some (if b then a :: keep else keep)
  end.

(** ** convert_to_csv *)

Definition header : row :=
  ["time"; "CPU"; "%usr"; "%nice"; "%sys"; "%iowait"; "%irq"; "%soft";
   "%steal"; "%guest"; "%gnice"; "%idle"].

Definition first_isdigit (line : string) : bool :=
  match line with
  | String c _ => Py.isdigit c
  | EmptyString => false
  end.

(** The body of the loop over the lines; [data] is the list built so far.
    [current_time] always ends up equal to [parts[0]], whatever it was, so
    [cpu_stats] is [parts[0]] followed by [parts[1:]]. *)
Definition convert_line (data : table) (line : string) : option table :=
  let line := Py.strip line in
  if (String.eqb line EmptyString || Py.startswith "CPU" line)%bool then Some data
  else if first_isdigit line then
    let parts := Py.split line in
    time <-? hd_error parts ;;
    let current_time := time in
    let cpu_stats := current_time :: tl parts in
    Some (data ++ [cpu_stats])
  else Some data.

Fixpoint convert_loop (lines : list string) (data : table) : option table :=
  match lines with
  | [] => Some data
  | line :: rest => data1 <-? convert_line data line ;; convert_loop rest data1
  end.

Definition convert_to_csv : prog unit :=
  (lines <- read_log ;;
   data <- attempt (convert_loop lines []) ;;
   open_w ;;
   writerow header ;;
   writerows data)%prog.

(** ** remove_cpu_rows *)

(** [len(line) > 1 and line[1].strip() == "CPU" and line[0].strip() != "time"] *)
Definition is_cpu_row (line : row) : bool :=
  (1 <? List.length line)
  && String.eqb (Py.strip (nth 1 line EmptyString)) "CPU"
  && negb (String.eqb (Py.strip (nth 0 line EmptyString)) "time").

Definition remove_line (filtered_lines : table) (line : row) : table :=
  if is_cpu_row line then filtered_lines else filtered_lines ++ [line].

Definition remove_cpu_rows : prog unit :=
  (lines <- read_csv_text ;;
   let filtered_lines := fold_left remove_line lines [] in
   open_w ;;
   writerows filtered_lines)%prog.

(** ** sort_cpu_data *)

(** A row as [csv.DictReader] yields it: an insertion-ordered dictionary from
    column names to fields.  The key [None] is the reader's [restkey], under
    which the fields beyond the header are kept as a list; the value [None]
    is its [restval], given to the columns a short row lacks. *)
Definition key := option string.

Inductive value :=
| VStr (s : string)
| VNone
| VList (l : list string).

Definition dict := list (key * value).

Definition key_eqb (a b : key) : bool :=
  match a, b with
  | Some x, Some y => String.eqb x y
  | None, None => true
  | _, _ => false
  end.

(** [d[k]]; [None] stands for [KeyError]. *)
Fixpoint dict_get (d : dict) (k : key) : option value :=
  match d with
  | [] => None
  | (k1, v1) :: rest => if key_eqb k1 k then Some v1 else dict_get rest k
  end.

(** [d[k] = v]: a present key keeps its place, a new one goes last. *)
Fixpoint dict_set (d : dict) (k : key) (v : value) : dict :=
  match d with
  | [] => [(k, v)]
  | (k1, v1) :: rest =>
      if key_eqb k1 k then (k1, v) :: rest else (k1, v1) :: dict_set rest k v
  end.

Definition keys (d : dict) : list key := map fst d.

(** [DictReader.__next__] on one non-blank row. *)
Definition dict_of_row (fieldnames : row) (r : row) : dict :=
  let d := fold_left (fun d kv => dict_set d (Some (fst kv)) (VStr (snd kv)))
                     (combine fieldnames r) [] in
  let lf := List.length fieldnames in
  let lr := List.length r in
  if lf <? lr then dict_set d None (VList (skipn lf r))
  else if lr <? lf then
    fold_left (fun d k => dict_set d (Some k) VNone) (skipn lr fieldnames) d
  else d.

Definition is_blank (r : row) : bool :=
  match r with
  | [] => true
  | _ => false
  end.

(** [list(csv.DictReader(infile))]: the first row names the columns, blank
    rows are skipped. *)
Definition DictReader (t : table) : list dict :=
  match t with
  | [] => []
  | fieldnames :: rest =>
      map (dict_of_row fieldnames) (filter (fun r => negb (is_blank r)) rest)
  end.

(** [row['CPU'] == 'all'] *)
Definition cpu_is_all (d : dict) : option bool :=
  v <-? dict_get d (Some "CPU") ;;
  Some match v with
       | VStr s => String.eqb s "all"
       | _ => false
       end.

(** [int(x['CPU'])]: [TypeError] on [None] and on a list. *)
Definition cpu_int (d : dict) : option Z :=
  v <-? dict_get d (Some "CPU") ;;
  match v with
  | VStr s => Py.int s
  | _ => None
  end.

(** [sorted(l, key=...)] is stable; the keys are computed first.  Stable
    insertion sort gives the same list. *)
Fixpoint insert_keyed {A} (k : Z) (x : A) (l : list (Z * A)) : list (Z * A) :=
  match l with
  | [] => [(k, x)]
  | (k1, y) :: rest =>
      if (k <=? k1)%Z then (k, x) :: l else (k1, y) :: insert_keyed k x rest
  end.

Fixpoint sort_keyed {A} (l : list (Z * A)) : list (Z * A) :=
  match l with
  | [] => []
  | (k, x) :: rest => insert_keyed k x (sort_keyed rest)
  end.

Definition sorted_by {A} (keyf : A -> option Z) (l : list A) : option (list A) :=
  keyed <-? omap (fun x => k <-? keyf x ;; Some (k, x)) l ;;
  Some (map snd (sort_keyed keyed)).

(** What [csv.writer] writes for a field. *)
Definition field_of_value (v : value) : string :=
  match v with
  | VStr s => s
  | VNone => EmptyString
  | VList l => Py.str_of_list l
  end.

Definition field_of_key (k : key) : string :=
  match k with
  | Some s => s
  | None => EmptyString
  end.

(** [DictWriter._dict_to_list]: [ValueError] when the row has a key that is
    not a field name, else the values in field order ([restval] is ''). *)
Definition dict_to_list (fieldnames : list key) (d : dict) : option row :=
  if forallb (fun k => existsb (key_eqb k) fieldnames) (keys d)
  then Some (map (fun k => match dict_get d k with
                           | Some v => field_of_value v
                           | None => EmptyString
                           end) fieldnames)
  else None.

(** [DictWriter.writerows]: rows are converted and written one by one, so a
    row that raises leaves the ones before it in the file. *)
Fixpoint dict_writerows (fieldnames : list key) (rows : list dict) : prog unit :=
  match rows with
  | [] => ret tt
  | d :: rest =>
      (r <- attempt (dict_to_list fieldnames d) ;;
       writerow r ;;
       dict_writerows fieldnames rest)%prog
  end.

Definition sort_cpu_data : prog unit :=
  (t <- read_csv ;;
   let rows := DictReader t in
   all_row <- attempt (ofilter cpu_is_all rows) ;;
   other_rows <- attempt (ofilter (fun d => b <-? cpu_is_all d ;; Some (negb b)) rows) ;;
   sorted_other <- attempt (sorted_by cpu_int other_rows) ;;
   let sorted_rows := all_row ++ sorted_other in
   open_w ;;
   first <- attempt (hd_error sorted_rows) ;;
   let fieldnames := keys first in
   writerow (map field_of_key fieldnames) ;;
   dict_writerows fieldnames sorted_rows)%prog.

(** ** process_file *)

(** [grouped_data]: an insertion-ordered dictionary from the CPU field to
    [{'start_time': ..., 'rows': [...]}]. *)
Record bucket := { start_time : Z; rows : list row }.

Definition grouped := list (string * bucket).

Fixpoint lookup (g : grouped) (cpu : string) : option bucket :=
  match g with
  | [] => None
  | (c, b) :: rest => if String.eqb c cpu then Some b else lookup rest cpu
  end.

(** Replaces the bucket of [cpu], which keeps its place. *)
Fixpoint update (g : grouped) (cpu : string) (b : bucket) : grouped :=
  match g with
  | [] => []
  | (c, b1) :: rest =>
      if String.eqb c cpu then (c, b) :: rest else (c, b1) :: update rest cpu b
  end.

(** [r[0] = v]; [IndexError] on an empty list. *)
Definition set_first (r : row) (v : string) : option row :=
  match r with
  | [] => None
  | _ :: rest => Some (v :: rest)
  end.

(** The body of the loop over [data]. *)
Definition group_row (grouped_data : grouped) (r : row) : option grouped :=
  cpu <-? nth_error r 1 ;;
  time_str <-? nth_error r 0 ;;
  time_obj <-? Py.strptime time_str ;;
  let grouped_data1 :=
    match lookup grouped_data cpu with
    | Some _ => grouped_data
    | None => grouped_data ++ [(cpu, {| start_time := time_obj; rows := [] |})]
    end in
  b <-? lookup grouped_data1 cpu ;;
  let time_diff := (time_obj - start_time b)%Z in
  r1 <-? set_first r (Py.str_of_int time_diff) ;;
  Some (update grouped_data1 cpu {| start_time := start_time b; rows := rows b ++ [r1] |}).

Fixpoint group_loop (data : table) (grouped_data : grouped) : option grouped :=
  match data with
  | [] => Some grouped_data
  | r :: rest => g1 <-? group_row grouped_data r ;; group_loop rest g1
  end.

Definition process_file : prog unit :=
  (t <- read_csv ;;
   hd_data <- attempt (match t with
                   | [] => None
                   | h :: data => Some (h, data)
                   end) ;;
   header1 <- attempt (set_first (fst hd_data) "time") ;;
   grouped_data <- attempt (group_loop (snd hd_data) []) ;;
   open_w ;;
   writerow header1 ;;
   writerows (flat_map (fun cb => rows (snd cb)) grouped_data))%prog.

(** ** __main__ *)

Definition main : prog unit :=
  (convert_to_csv ;;
   remove_cpu_rows ;;
   sort_cpu_data ;;
   process_file)%prog.

(** A whole run on a captured log: the exit code of the process and the CSV
    file it leaves behind. *)
Definition run (lines : list string) : Z * option table :=
  match main {| log_file := lines; csv_file := None |} with
  | (Returned _, f) => (0%Z, csv_file f)
  | (Exited code, f) => (code, csv_file f)
  end.

(** ** measure_cpu_usage and the whole script *)

(** What running [timeout duration mpstat -P ALL 1] gives: [None] when a
    command is missing ([FileNotFoundError]), else the lines the process wrote
    to its standard output, which is the log, and its return code. *)
Definition capture := option (list string * Z).

(** Writing the log, a path other than the CSV file's. *)
Definition write_log (lines : list string) : prog unit :=
  fun f => (Returned tt, {| log_file := lines; csv_file := csv_file f |}).

(** The log is opened for writing, so emptied, before the process starts.
    Return code 124 is [timeout]'s for a run it had to stop.  After a good run
    the log is read back and written again without its first two lines. *)
Definition measure_cpu_usage (mpstat : capture) : prog unit :=
  (write_log [] ;;
   match mpstat with
   | None => sys_exit 1
   | Some (stdout, returncode) =>
       write_log stdout ;;
       if ((returncode =? 0) || (returncode =? 124))%Z then
         lines <- read_log ;;
         write_log (skipn 2 lines)
       else sys_exit 1
   end)%prog.

(** [__main__] with the capture in front of the four stages. *)
Definition script (mpstat : capture) : prog unit :=
  (measure_cpu_usage mpstat ;; main)%prog.

(** A run of the script from files [f]: exit code and files left. *)
Definition run_script (mpstat : capture) (f : files) : Z * files :=
  match script mpstat f with
  | (Returned _, f1) => (0%Z, f1)
  | (Exited code, f1) => (code, f1)
  end.

(** ** pic.py: reading the table for the chart *)

Section Pic.
(** [float(s)] is left open: [flt] is any parser of floating-point
    literals, [None] when it raises. *)
Variable flt_t : Type.
Variable flt : string -> option flt_t.

(** [cpu_data], a [defaultdict(list)]: [cpu_data[cpu].append(usr)]. *)
Fixpoint dd_append (d : list (string * list flt_t)) (cpu : string) (usr : flt_t)
  : list (string * list flt_t) :=
  match d with
  | [] => [(cpu, [usr])]
  | (c, l) :: rest =>
      if String.eqb c cpu then (c, l ++ [usr]) :: rest
      else (c, l) :: dd_append rest cpu usr
  end.

(** [len(times) == 0 or times[-1] != time] *)
Definition new_time (times : list Z) (time : Z) : bool :=
  match times with
  | [] => true
  | _ => negb (last times 0 =? time)%Z
  end.

(** The body of the loop over the rows. *)
Definition pic_row (st : list Z * list (string * list flt_t)) (r : row)
  : option (list Z * list (string * list flt_t)) :=
  let (times, cpu_data) := st in
  f0 <-? nth_error r 0 ;;
  time <-? Py.int f0 ;;
  cpu <-? nth_error r 1 ;;
  f2 <-? nth_error r 2 ;;
  usr <-? flt f2 ;;
  let times1 := if new_time times time then times ++ [time] else times in
  Some (times1, dd_append cpu_data cpu usr).

Fixpoint pic_loop (rs : table) (st : list Z * list (string * list flt_t))
  : option (list Z * list (string * list flt_t)) :=
  match rs with
  | [] => Some st
  | r :: rest => st1 <-? pic_row st r ;; pic_loop rest st1
  end.

(** Lines 8 to 27 of [generate_cpu_usage_graph]: the file goes through
    [csv.reader], the header is skipped ([StopIteration] on an empty file),
    the rows are read.  Nothing catches an exception here. *)
Definition read_usage (t : table) : option (list Z * list (string * list flt_t)) :=
  t1 <-? csv_reader t ;;
  match t1 with
  | [] => None
  | _ :: rs => pic_loop rs ([], [])
  end.
End Pic.

Arguments dd_append {flt_t} d cpu usr.
Arguments pic_row {flt_t} flt st r.
Arguments pic_loop {flt_t} flt rs st.
Arguments read_usage {flt_t} flt t.

(** ** Vocabulary of the statements *)

(** A line the parser keeps, in the words of the description: its first
    token begins with a digit.  [convert_line_spec] shows that this is the test
    the loop makes. *)
Definition qualifying (line : string) : bool :=
  match Py.split line with
  | t :: _ => first_isdigit t
  | [] => false
  end.

(** The rows parsed from the log, and those that survive [remove_cpu_rows],
    both in the order of the log. *)
Definition parsed (lines : list string) : table :=
  map Py.split (filter qualifying lines).

Definition data_rows (lines : list string) : table :=
  filter (fun r => negb (is_cpu_row r)) (parsed lines).

(** The CPU field of a row, and the rows of one series. *)
Definition row_cpu (r : row) : string := nth 1 r EmptyString.
Definition row_time (r : row) : string := nth 0 r EmptyString.

Definition series_of (c : string) (t : table) : table :=
  filter (fun r => String.eqb (row_cpu r) c) t.

(** What [sort_cpu_data] makes of a parsed row [n] when it goes through
    [DictReader] and [DictWriter] under the twelve-column header: the twelve
    named columns, missing ones empty, and, when the field names of the
    writer include the [restkey] ([wide]), one more column with the fields
    beyond the twelfth printed as a list. *)
Definition long (n : row) : bool := 12 <? List.length n.

Definition pad12 (n : row) : row :=
  map (fun i => nth i n EmptyString) (seq 0 12).

Definition extra (n : row) : string :=
  if long n then Py.str_of_list (skipn 12 n) else EmptyString.

Definition render (wide : bool) (n : row) : row :=
  pad12 n ++ (if wide then [extra n] else []).

Definition wide_header (wide : bool) : row :=
  header ++ (if wide then [EmptyString] else []).

(** The rows before the first one with more than twelve fields. *)
Fixpoint short_prefix (t : table) : table :=
  match t with
  | [] => []
  | n :: rest => if long n then [] else n :: short_prefix rest
  end.

(** The order [sort_cpu_data] gives to parsed rows. *)
Definition is_all (n : row) : bool := String.eqb (row_cpu n) "all".

Definition row_int (n : row) : option Z :=
  c <-? nth_error n 1 ;; Py.int c.

Definition sorted_table (t : table) : option table :=
  so <-? sorted_by row_int (filter (fun n => negb (is_all n)) t) ;;
  Some (filter is_all t ++ so).

(** The rows [process_file] writes, bucket after bucket. *)
Definition out (g : grouped) : table := flat_map (fun cb => rows (snd cb)) g.

(** [r] is the row [p] with its time replaced by the seconds elapsed since
    [start]. *)
Definition elapsed_row (start : Z) (p r : row) : Prop :=
  exists t, Py.strptime (row_time p) = Some t /\
            r = Py.str_of_int (t - start) :: tl p.

(** In [t] a row of series [c1] comes before a row of series [c2]. *)
Definition before (t : table) (c1 c2 : string) : Prop :=
  exists t1 t2, t = t1 ++ t2
    /\ (exists x, In x t1 /\ row_cpu x = c1)
    /\ (exists y, In y t2 /\ row_cpu y = c2).

(** What the loop of [process_file] keeps true of the rows [done] it has
    gone through and the dictionary [g] it has built: the bucket of a series
    holds the rows of that series, in order, with their times counted from the
    first one; a series without bucket has no row; the buckets stand in the
    order in which their series first appeared. *)
Definition bucket_ok (done : table) (c : string) (b : bucket) : Prop :=
  Forall2 (elapsed_row (start_time b)) (series_of c done) (rows b) /\
  exists r0, hd_error (series_of c done) = Some r0 /\
             Py.strptime (row_time r0) = Some (start_time b).

Record grouped_inv (done : table) (g : grouped) : Prop := {
  inv_nodup : NoDup (map fst g);
  inv_bucket : forall c b, lookup g c = Some b -> bucket_ok done c b;
  inv_absent : forall c, lookup g c = None -> series_of c done = [];
  inv_order : ForallOrdPairs (before done) (map fst g);
  inv_length : List.length (out g) = List.length done
}.

(** The order of two CPU fields in the sorted file: 'all' before anything,
    then by integer value. *)
Definition precedes (c1 c2 : string) : Prop :=
  c1 = "all" \/
  (c2 <> "all" /\
   exists a b, Py.int c1 = Some a /\ Py.int c2 = Some b /\ (a <= b)%Z).

(** Strings of decimal digits, as [str] prints a natural number. *)
Fixpoint all_digits (s : string) : bool :=
  match s with
  | EmptyString => true
  | String c r => Py.isdigit c && all_digits r
  end.

(** [r] is what a run that succeeds writes for the parsed row [n] of a series
    whose first row has the time [start]. *)
Definition emitted (wide : bool) (start : Z) (n r : row) : Prop :=
  exists t, Py.strptime (row_time n) = Some t /\
            r = Py.str_of_int (t - start) :: tl (render wide n).

(** The order of the final table as a stricter reading has it: two rows of
    different numeric series stand in strictly ascending integer order. *)
Definition strictly_precedes (c1 c2 : string) : Prop :=
  c1 = "all" \/
  (c2 <> "all" /\
   exists a b, Py.int c1 = Some a /\ Py.int c2 = Some b /\
               (c1 = c2 \/ (a < b)%Z)).

(** The elapsed times of a series, read back as the chart does ([int(row[0])]),
    never go down. *)
Definition nondecreasing_elapsed (c : string) (f : table) : Prop :=
  exists zs, map (fun r => Py.int (row_time r)) (series_of c f) = map Some zs /\
             StronglySorted Z.le zs.

Definition spec_example : list string :=
  ["08:00:01 all 5.0 0 1.0 0 0 0 0 0 0 93.0";
   "08:00:01 0 4.0 0 1.0 0 0 0 0 0 0 94.0";
   "";
   "08:00:02 CPU %usr %nice %sys %iowait %irq %soft %steal %guest %gnice %idle";
   "08:00:02 all 6.0 0 1.0 0 0 0 0 0 0 92.0";
   "08:00:02 0 5.0 0 1.0 0 0 0 0 0 0 93.0"].

Definition spec_rows : table :=
  [["0"; "all"; "5.0"; "0"; "1.0"; "0"; "0"; "0"; "0"; "0"; "0"; "93.0"];
   ["1"; "all"; "6.0"; "0"; "1.0"; "0"; "0"; "0"; "0"; "0"; "0"; "92.0"];
   ["0"; "0"; "4.0"; "0"; "1.0"; "0"; "0"; "0"; "0"; "0"; "0"; "94.0"];
   ["1"; "0"; "5.0"; "0"; "1.0"; "0"; "0"; "0"; "0"; "0"; "0"; "93.0"]].

(** Two spellings of CPU 1. *)
Definition same_int_lines : list string :=
  ["08:00:01 1 4.0 0 1.0 0 0 0 0 0 0 94.0";
   "08:00:01 01 3.0 0 1.0 0 0 0 0 0 0 95.0"].

Definition same_int_rows : table :=
  [["0"; "1"; "4.0"; "0"; "1.0"; "0"; "0"; "0"; "0"; "0"; "0"; "94.0"];
   ["0"; "01"; "3.0"; "0"; "1.0"; "0"; "0"; "0"; "0"; "0"; "0"; "95.0"]].

(** A line of eight tokens. *)
Definition short_line : string := "08:00:01 all 5.0 0 1.0 0 0 0".

(** A run is rejected: the process ends with an error and no CSV file. *)
Definition rejected (lines : list string) : Prop :=
  fst (run lines) <> 0%Z /\ snd (run lines) = None.

(** A CPU field that is neither 'all' nor an integer. *)
Definition bad_cpu_lines : list string :=
  ["08:00:01 abc 5.0 0 1.0 0 0 0 0 0 0 93.0"].

(** An error leaves nothing behind: no file, or an empty one. *)
Definition no_output_on_error (lines : list string) : Prop :=
  fst (run lines) <> 0%Z ->
  snd (run lines) = None \/ snd (run lines) = Some [].

(** The rule of [remove_cpu_rows], on the fields as they are and on the
    fields with the surrounding whitespace dropped. *)
Definition literal_header_repeat (r : row) : Prop :=
  nth_error r 1 = Some "CPU" /\ nth_error r 0 <> Some "time".

Definition header_repeat (r : row) : Prop :=
  exists t c rest, r = t :: c :: rest /\
                   Py.strip c = "CPU" /\ Py.strip t <> "time".

(** A run over midnight. *)
Definition midnight_lines : list string :=
  ["23:59:59 all 5.0 0 1.0 0 0 0 0 0 0 93.0";
   "00:00:00 all 6.0 0 1.0 0 0 0 0 0 0 92.0"].

Definition midnight_rows : table :=
  [["0"; "all"; "5.0"; "0"; "1.0"; "0"; "0"; "0"; "0"; "0"; "0"; "93.0"];
   ["-86399"; "all"; "6.0"; "0"; "1.0"; "0"; "0"; "0"; "0"; "0"; "0"; "92.0"]].

(** A line of thirteen tokens. *)
Definition long_line : string :=
  "08:00:01 0 4.0 0 1.0 0 0 0 0 0 0 94.0 extra".

Definition long_row : row :=
  ["0"; "0"; "4.0"; "0"; "1.0"; "0"; "0"; "0"; "0"; "0"; "0"; "94.0";
   "['extra']"].

(** Every row of the table [f] is a qualifying line of the log with all its
    tokens but the first in place. *)
Definition passed_unchanged (lines : list string) (f : table) : Prop :=
  forall r, In r f ->
    exists l, In l lines /\ qualifying l = true /\
              forall i, 1 <= i -> nth_error r i = nth_error (Py.split l) i.

(** Lines that do not qualify. *)
Definition noise_lines : list string :=
  ["Linux 6.1.0 (host)"; ""; "Average:  all  5.0  0.0"].

(** A token: a non-empty string without whitespace. *)
Fixpoint no_space (s : string) : bool :=
  match s with
  | EmptyString => true
  | String c r => negb (Py.isspace c) && no_space r
  end.

Definition token (s : string) : Prop := s <> EmptyString /\ no_space s = true.

(** A string without carriage return: text mode leaves it as it is. *)
Fixpoint no_cr (s : string) : bool :=
  match s with
  | EmptyString => true
  | String c r => negb (Ascii.eqb c Py.CR) && no_cr r
  end.

(** A row [sort_cpu_data] and [process_file] accept. *)
Definition cpu_ok (n : row) : Prop := is_all n = true \/ row_int n <> None.
Definition time_ok (n : row) : Prop := Py.strptime (row_time n) <> None.

(** * Properties *)

(** ** The built-ins *)

Lemma isspace_not_digit c : Py.isspace c = true -> Py.isdigit c = false.
Proof.
  unfold Py.isspace, Py.isdigit. generalize (nat_of_ascii c). intros n H.
  apply andb_false_iff.
  apply orb_true_iff in H. rewrite !andb_true_iff, !Nat.leb_le in H.
  rewrite !Nat.leb_gt. lia.
Qed.

Lemma split_from_some r : forall c t,
  exists u rest, Py.split_from (Some (String c t)) r = String c u :: rest.
Proof.
  induction r as [|a r IH]; intros c t; simpl.
  - now exists t, [].
  - destruct (Py.isspace a).
    + now exists t, (Py.split_from None r).
    + apply IH.
Qed.

Lemma split_lstrip s : Py.split (Py.lstrip s) = Py.split s.
Proof.
  unfold Py.split. induction s as [|c s IH]; simpl; auto.
  destruct (Py.isspace c) eqn:E; simpl; auto. now rewrite E.
Qed.

Lemma split_from_rstrip s : forall cur,
  Py.split_from cur (Py.rstrip s) = Py.split_from cur s.
Proof.
  induction s as [|c s IH]; intros cur; simpl; auto.
  destruct (Py.rstrip s) as [|b s1] eqn:R.
  - destruct (Py.isspace c) eqn:E; simpl.
    + rewrite <- (IH None). simpl. now destruct cur.
    + rewrite E. now rewrite <- IH.
  - simpl. destruct (Py.isspace c) eqn:E.
    + rewrite <- (IH None). now simpl.
    + rewrite <- IH. now simpl.
Qed.

Lemma split_strip s : Py.split (Py.strip s) = Py.split s.
Proof.
  unfold Py.strip, Py.split at 1. rewrite split_from_rstrip. apply split_lstrip.
Qed.

Lemma first_isdigit_rstrip s : first_isdigit (Py.rstrip s) = first_isdigit s.
Proof.
  destruct s as [|c s]; simpl; auto.
  destruct (Py.rstrip s); auto.
  destruct (Py.isspace c) eqn:E; simpl; auto.
  symmetry. now apply isspace_not_digit.
Qed.

Lemma first_isdigit_lstrip s : first_isdigit (Py.lstrip s) = qualifying s.
Proof.
  unfold qualifying, Py.split. induction s as [|c s IH]; simpl; auto.
  destruct (Py.isspace c) eqn:E; auto.
  destruct (split_from_some s c EmptyString) as (u & rest & H).
  now rewrite H.
Qed.

Lemma first_isdigit_strip s : first_isdigit (Py.strip s) = qualifying s.
Proof.
  unfold Py.strip. rewrite first_isdigit_rstrip. apply first_isdigit_lstrip.
Qed.

Lemma qualifying_split s : qualifying s = true -> Py.split s <> [].
Proof. unfold qualifying. now destruct (Py.split s). Qed.

(** The loop body of [convert_to_csv] keeps exactly the qualifying lines, as
    the row of their tokens, and never raises. *)
Lemma convert_line_spec data line :
  convert_line data line =
  Some (if qualifying line then data ++ [Py.split line] else data).
Proof.
  unfold convert_line. rewrite split_strip, first_isdigit_strip.
  destruct (qualifying line) eqn:Q.
  - rewrite <- first_isdigit_strip in Q.
    destruct (Py.strip line) as [|c s] eqn:S; [discriminate|].
    simpl in Q. replace (String.eqb (String c s) EmptyString) with false by reflexivity.
    assert (P : Py.startswith "CPU" (String c s) = false).
    { unfold Py.startswith.
      change ((if ascii_dec "C" c then String.prefix "PU" s else false) = false).
      destruct (ascii_dec "C" c) as [<-|]; [discriminate Q | reflexivity]. }
    rewrite P. simpl.
    assert (N : Py.split line <> []).
    { apply qualifying_split. rewrite <- first_isdigit_strip, S. exact Q. }
    destruct (Py.split line); [congruence | reflexivity].
  - now destruct (_ || _)%bool.
Qed.

Lemma convert_loop_spec lines : forall data,
  convert_loop lines data = Some (data ++ parsed lines).
Proof.
  unfold parsed. induction lines as [|l lines IH]; intros data; simpl.
  - now rewrite app_nil_r.
  - rewrite convert_line_spec. simpl. rewrite IH.
    destruct (qualifying l); simpl; auto. now rewrite <- app_assoc.
Qed.

(** ** Rows of tokens *)

Lemma no_space_snoc t c :
  no_space (t ++ String c EmptyString) = (no_space t && negb (Py.isspace c))%bool.
Proof.
  induction t as [|a t IH]; simpl.
  - now rewrite andb_true_r.
  - rewrite IH. now rewrite andb_assoc.
Qed.

Lemma split_from_tokens s : forall cur,
  (forall t, cur = Some t -> token t) -> Forall token (Py.split_from cur s).
Proof.
  induction s as [|c s IH]; intros cur H; simpl.
  - destruct cur as [t|]; constructor; auto.
  - destruct (Py.isspace c) eqn:E.
    + destruct cur as [t|]; [constructor; auto|]; apply IH; discriminate.
    + apply IH. intros t1 E1. injection E1 as <-.
      destruct cur as [t|].
      * destruct (H t eq_refl) as (N & S). split.
        -- destruct t; simpl; congruence.
        -- now rewrite no_space_snoc, S, E.
      * split; [discriminate|]. simpl. now rewrite E.
Qed.

Lemma split_tokens s : Forall token (Py.split s).
Proof. apply split_from_tokens. discriminate. Qed.

Lemma rstrip_no_space s : no_space s = true -> Py.rstrip s = s.
Proof.
  induction s as [|c s IH]; simpl; auto. intros H.
  apply andb_true_iff in H as (Hc & Hs). rewrite (IH Hs).
  apply negb_true_iff in Hc. rewrite Hc. now destruct s.
Qed.

Lemma strip_no_space s : no_space s = true -> Py.strip s = s.
Proof.
  intros H. unfold Py.strip.
  assert (L : Py.lstrip s = s).
  { destruct s as [|c s]; simpl in *; auto.
    apply andb_true_iff in H as (Hc & _). apply negb_true_iff in Hc.
    now rewrite Hc. }
  rewrite L. now apply rstrip_no_space.
Qed.

Lemma parsed_rows_are_tokens_aux lg r :
  In r (parsed lg) ->
  Forall token r /\
  exists first rest, r = first :: rest /\ first_isdigit first = true.
Proof.
  intros Hr. unfold parsed in Hr.
  apply in_map_iff in Hr as (l & <- & Hl). apply filter_In in Hl as (_ & Q).
  split; [apply split_tokens|].
  unfold qualifying in Q. destruct (Py.split l) as [|first rest];
    [discriminate|]. now exists first, rest.
Qed.

(** ** The reader: long fields and text mode *)

Lemma len_nonneg s : (0 <= Py.len s)%Z.
Proof. induction s; simpl; lia. Qed.

Lemma fields_fit_forall t :
  fields_fit t = true <-> forall r, In r t -> forallb fits r = true.
Proof. apply forallb_forall. Qed.

Lemma fields_fit_header t : fields_fit (header :: t) = fields_fit t.
Proof. reflexivity. Qed.

Lemma fields_fit_incl t t1 :
  (forall r, In r t1 -> In r t) -> fields_fit t = true -> fields_fit t1 = true.
Proof.
  rewrite !fields_fit_forall. intros I H r Hr. apply H, I, Hr.
Qed.

Lemma fields_fit_filter p t :
  fields_fit t = true -> fields_fit (filter p t) = true.
Proof.
  apply fields_fit_incl. intros r Hr. now apply filter_In in Hr.
Qed.

Lemma fits_tl r : forallb fits r = true -> forallb fits (tl r) = true.
Proof. destruct r as [|a r]; simpl; auto. intros H. now apply andb_true_iff in H. Qed.

Lemma universal_newlines_no_cr s : no_cr (Py.universal_newlines s) = true.
Proof.
  induction s as [|c s IH]; simpl; auto.
  destruct (Ascii.eqb c Py.CR) eqn:E.
  - destruct (Py.starts_with_LF s); simpl; auto.
  - simpl. now rewrite E.
Qed.

Lemma universal_newlines_id s : no_cr s = true -> Py.universal_newlines s = s.
Proof.
  induction s as [|c s IH]; simpl; auto. intros H.
  apply andb_true_iff in H as (Hc & Hs). apply negb_true_iff in Hc.
  now rewrite Hc, (IH Hs).
Qed.

Lemma no_space_no_cr s : no_space s = true -> no_cr s = true.
Proof.
  induction s as [|c s IH]; simpl; auto. intros H.
  apply andb_true_iff in H as (Hc & Hs). rewrite (IH Hs), andb_true_r.
  destruct (Ascii.eqb_spec c Py.CR) as [->|]; [discriminate Hc | reflexivity].
Qed.

Lemma text_mode_id t :
  Forall (Forall (fun s => no_cr s = true)) t -> text_mode t = t.
Proof.
  unfold text_mode. induction 1 as [|r t Hr _ IH]; simpl; auto.
  rewrite IH. f_equal.
  induction Hr as [|a r Ha _ IHr]; simpl; auto.
  now rewrite IHr, (universal_newlines_id a Ha).
Qed.

Lemma text_mode_no_cr t : Forall (Forall (fun s => no_cr s = true)) (text_mode t).
Proof.
  unfold text_mode. apply Forall_forall. intros r Hr.
  apply in_map_iff in Hr as (r0 & <- & _).
  apply Forall_forall. intros a Ha. apply in_map_iff in Ha as (a0 & <- & _).
  apply universal_newlines_no_cr.
Qed.

Lemma tokens_no_cr r : Forall token r -> Forall (fun s => no_cr s = true) r.
Proof.
  intros H. eapply Forall_impl; [|exact H]. intros a (_ & S).
  now apply no_space_no_cr.
Qed.

(** The parser's output is read back as it was written. *)
Lemma text_mode_parsed lines :
  text_mode (header :: parsed lines) = header :: parsed lines.
Proof.
  apply text_mode_id. constructor; [repeat constructor|].
  apply Forall_forall. intros r Hr.
  apply tokens_no_cr. now apply (parsed_rows_are_tokens_aux lines r).
Qed.

Lemma read_csv_spec lg t :
  read_csv {| log_file := lg; csv_file := Some t |} =
  (if fields_fit t then Returned t else Exited 1%Z,
   {| log_file := lg; csv_file := Some t |}).
Proof.
  unfold read_csv, bind, open_r, csv_reader. cbn [csv_file attempt ret].
  now destruct (fields_fit t).
Qed.

Lemma read_csv_text_spec lg t :
  read_csv_text {| log_file := lg; csv_file := Some t |} =
  (if fields_fit (text_mode t) then Returned (text_mode t) else Exited 1%Z,
   {| log_file := lg; csv_file := Some t |}).
Proof.
  unfold read_csv_text, bind, open_r, csv_reader. cbn [csv_file attempt ret].
  now destruct (fields_fit (text_mode t)).
Qed.

(** ** The stages as functions on the CSV file *)

Lemma writerows_spec rs : forall lg t,
  writerows rs {| log_file := lg; csv_file := Some t |} =
  (Returned tt, {| log_file := lg; csv_file := Some (t ++ rs) |}).
Proof.
  induction rs as [|r rs IH]; intros lg t; simpl.
  - now rewrite app_nil_r.
  - unfold bind, writerow. simpl. rewrite IH. now rewrite <- app_assoc.
Qed.

Lemma convert_to_csv_spec lg o :
  convert_to_csv {| log_file := lg; csv_file := o |} =
  (Returned tt, {| log_file := lg; csv_file := Some (header :: parsed lg) |}).
Proof.
  unfold convert_to_csv, bind, read_log. simpl.
  rewrite convert_loop_spec. simpl. now rewrite writerows_spec.
Qed.

Lemma remove_loop_spec lines : forall acc,
  fold_left remove_line lines acc =
  acc ++ filter (fun r => negb (is_cpu_row r)) lines.
Proof.
  induction lines as [|l lines IH]; intros acc; simpl.
  - now rewrite app_nil_r.
  - rewrite IH. unfold remove_line. destruct (is_cpu_row l); simpl; auto.
    now rewrite <- app_assoc.
Qed.

(** What [remove_cpu_rows] does to a file: nothing when the reader refuses a
    field, and otherwise the rows as read, less those the test drops. *)
Lemma remove_cpu_rows_spec lg t :
  remove_cpu_rows {| log_file := lg; csv_file := Some t |} =
  if fields_fit (text_mode t)
  then (Returned tt,
        {| log_file := lg;
           csv_file := Some (filter (fun r => negb (is_cpu_row r)) (text_mode t)) |})
  else (Exited 1%Z, {| log_file := lg; csv_file := Some t |}).
Proof.
  unfold remove_cpu_rows, bind. rewrite read_csv_text_spec.
  destruct (fields_fit (text_mode t)); [|reflexivity].
  unfold open_w. cbn [log_file csv_file].
  now rewrite writerows_spec, remove_loop_spec.
Qed.

(** ** sort_cpu_data on rows under the twelve-column header *)

Lemma dict_of_row_header n :
  let d := dict_of_row header n in
  keys d = map Some header ++ (if long n then [None] else [])
  /\ dict_get d (Some "CPU") =
     Some (match nth_error n 1 with Some c => VStr c | None => VNone end)
  /\ dict_to_list (map Some header) d = (if long n then None else Some (pad12 n))
  /\ dict_to_list (map Some header ++ [None]) d = Some (pad12 n ++ [extra n]).
Proof.
  do 13 (destruct n as [|? n]; [repeat split; reflexivity|]).
  repeat split; reflexivity.
Qed.

Lemma cpu_is_all_header n :
  cpu_is_all (dict_of_row header n) = Some (is_all n).
Proof.
  unfold cpu_is_all. destruct (dict_of_row_header n) as (_ & -> & _).
  unfold is_all, row_cpu. simpl.
  destruct n as [|? [|c n]]; reflexivity.
Qed.

Lemma cpu_int_header n : cpu_int (dict_of_row header n) = row_int n.
Proof.
  unfold cpu_int, row_int. destruct (dict_of_row_header n) as (_ & -> & _).
  destruct n as [|? [|c n]]; reflexivity.
Qed.

Lemma ofilter_map {A B} (f : A -> B) (p : B -> option bool) (q : A -> bool) l :
  (forall a, p (f a) = Some (q a)) ->
  ofilter p (map f l) = Some (map f (filter q l)).
Proof.
  intros H. induction l as [|a l IH]; simpl; auto.
  rewrite H, IH. simpl. now destruct (q a).
Qed.

Lemma insert_keyed_map {A B} (f : A -> B) k x l :
  insert_keyed k (f x) (map (fun kx => (fst kx, f (snd kx))) l) =
  map (fun kx => (fst kx, f (snd kx))) (insert_keyed k x l).
Proof.
  induction l as [|[k1 y] l IH]; simpl; auto.
  destruct (k <=? k1)%Z; simpl; auto. now rewrite IH.
Qed.

Lemma sort_keyed_map {A B} (f : A -> B) l :
  sort_keyed (map (fun kx => (fst kx, f (snd kx))) l) =
  map (fun kx => (fst kx, f (snd kx))) (sort_keyed l).
Proof.
  induction l as [|[k x] l IH]; simpl; auto.
  now rewrite IH, insert_keyed_map.
Qed.

Lemma sorted_by_map {A B} (f : A -> B) (kb : B -> option Z) (ka : A -> option Z) l :
  (forall a, kb (f a) = ka a) ->
  sorted_by kb (map f l) = option_map (map f) (sorted_by ka l).
Proof.
  intros H. unfold sorted_by.
  assert (E : omap (fun x => k <-? kb x ;; Some (k, x)) (map f l) =
              option_map (map (fun kx => (fst kx, f (snd kx))))
                         (omap (fun x => k <-? ka x ;; Some (k, x)) l)).
  { induction l as [|a l IH]; simpl; auto.
    rewrite H, IH. destruct (ka a); simpl; auto.
    now destruct (omap _ l). }
  rewrite E. destruct (omap _ l) as [keyed|]; simpl; auto.
  rewrite sort_keyed_map, !map_map. reflexivity.
Qed.

Lemma filter_nonblank (t : table) :
  Forall (fun r => r <> []) t -> filter (fun r => negb (is_blank r)) t = t.
Proof.
  induction 1 as [|r t H _ IH]; simpl; auto.
  destruct r; [congruence|]. simpl. now rewrite IH.
Qed.

Lemma dict_writerows_wide sn : forall lg t,
  dict_writerows (map Some header ++ [None]) (map (dict_of_row header) sn)
                 {| log_file := lg; csv_file := Some t |} =
  (Returned tt, {| log_file := lg; csv_file := Some (t ++ map (render true) sn) |}).
Proof.
  induction sn as [|n sn IH]; intros lg t.
  - simpl. now rewrite app_nil_r.
  - cbn [map dict_writerows]. unfold bind.
    destruct (dict_of_row_header n) as (_ & _ & _ & ->).
    unfold attempt, ret, writerow. cbn [csv_file log_file].
    rewrite IH. unfold render. now rewrite <- app_assoc.
Qed.

Lemma dict_writerows_narrow sn : forall lg t,
  dict_writerows (map Some header) (map (dict_of_row header) sn)
                 {| log_file := lg; csv_file := Some t |} =
  (if forallb (fun n => negb (long n)) sn then Returned tt else Exited 1%Z,
   {| log_file := lg; csv_file := Some (t ++ map pad12 (short_prefix sn)) |}).
Proof.
  induction sn as [|n sn IH]; intros lg t.
  - simpl. now rewrite app_nil_r.
  - cbn [map dict_writerows forallb short_prefix]. unfold bind.
    destruct (dict_of_row_header n) as (_ & _ & -> & _).
    destruct (long n); cbn [negb andb].
    + unfold attempt, sys_exit. cbn [map]. now rewrite app_nil_r.
    + unfold attempt, ret, writerow. cbn [csv_file log_file map].
      rewrite IH. now rewrite <- app_assoc.
Qed.

Lemma short_prefix_all sn :
  forallb (fun n => negb (long n)) sn = true -> short_prefix sn = sn.
Proof.
  induction sn as [|n sn IH]; simpl; auto.
  destruct (long n); simpl; [discriminate|]. intros H. now rewrite IH.
Qed.

(** What [sort_cpu_data] does to a file holding the header and the non-blank
    rows [t]: nothing when the reader refuses a field or a CPU field is
    neither 'all' nor an integer, an empty file when there is no row, and
    otherwise the sorted rows, up to the first row the [DictWriter] refuses. *)
Lemma sort_cpu_data_spec lg t :
  Forall (fun r => r <> []) t ->
  sort_cpu_data {| log_file := lg; csv_file := Some (header :: t) |} =
  match (if fields_fit t then sorted_table t else None) with
  | None => (Exited 1%Z, {| log_file := lg; csv_file := Some (header :: t) |})
  | Some [] => (Exited 1%Z, {| log_file := lg; csv_file := Some [] |})
  | Some (n0 :: rest) =>
      let sn := n0 :: rest in
      if long n0 then
        (Returned tt,
         {| log_file := lg;
            csv_file := Some (wide_header true :: map (render true) sn) |})
      else
        (if forallb (fun n => negb (long n)) sn then Returned tt else Exited 1%Z,
         {| log_file := lg;
            csv_file := Some (header :: map pad12 (short_prefix sn)) |})
  end.
Proof.
  intros NB. unfold sort_cpu_data, bind. rewrite read_csv_spec, fields_fit_header.
  destruct (fields_fit t); [|reflexivity].
  unfold DictReader. rewrite (filter_nonblank t NB).
  rewrite (ofilter_map (dict_of_row header) cpu_is_all is_all)
    by apply cpu_is_all_header.
  cbn [attempt ret].
  rewrite (ofilter_map (dict_of_row header) _ (fun n => negb (is_all n)))
    by (intros a; now rewrite cpu_is_all_header).
  cbn [attempt ret].
  rewrite (sorted_by_map (dict_of_row header) cpu_int row_int)
    by apply cpu_int_header.
  unfold sorted_table.
  destruct (sorted_by row_int (filter (fun n => negb (is_all n)) t)) as [so|];
    cbn [option_map obind attempt ret sys_exit]; [|reflexivity].
  rewrite <- map_app. unfold open_w. cbn [log_file csv_file].
  destruct (filter is_all t ++ so) as [|n0 sn] eqn:E;
    cbn [map hd_error attempt ret sys_exit]; [reflexivity|].
  destruct (dict_of_row_header n0) as (-> & _).
  unfold writerow. cbn [csv_file log_file]. cbv zeta.
  rewrite <- (map_cons (dict_of_row header) n0 sn).
  destruct (long n0).
  - rewrite dict_writerows_wide. reflexivity.
  - rewrite app_nil_r. rewrite dict_writerows_narrow. reflexivity.
Qed.

(** ** process_file: the grouping loop *)

Lemma lookup_update g c b : forall c1,
  lookup (update g c b) c1 =
  match lookup g c1 with
  | Some b1 => Some (if String.eqb c1 c then b else b1)
  | None => None
  end.
Proof.
  induction g as [|[c0 b0] g IH]; intros c1; simpl; auto.
  destruct (String.eqb_spec c0 c) as [->|N]; simpl.
  - destruct (String.eqb_spec c c1) as [->|N1].
    + now rewrite String.eqb_refl.
    + destruct (lookup g c1); auto.
      destruct (String.eqb_spec c1 c); [congruence | reflexivity].
  - destruct (String.eqb_spec c0 c1) as [->|N1]; auto.
    destruct (String.eqb_spec c1 c); [congruence | reflexivity].
Qed.

Lemma keys_update g c b : map fst (update g c b) = map fst g.
Proof.
  induction g as [|[c0 b0] g IH]; simpl; auto.
  destruct (String.eqb c0 c); simpl; congruence.
Qed.

Lemma lookup_app g c b : forall c1,
  lookup (g ++ [(c, b)]) c1 =
  match lookup g c1 with
  | Some b1 => Some b1
  | None => if String.eqb c c1 then Some b else None
  end.
Proof.
  induction g as [|[c0 b0] g IH]; intros c1; simpl; auto.
  now destruct (String.eqb c0 c1).
Qed.

Lemma update_app_new g c b0 b :
  lookup g c = None -> update (g ++ [(c, b0)]) c b = g ++ [(c, b)].
Proof.
  induction g as [|[c0 b1] g IH]; simpl.
  - now rewrite String.eqb_refl.
  - destruct (String.eqb c0 c); [discriminate|]. intros H. now rewrite IH.
Qed.

Lemma lookup_None_keys g c : lookup g c = None <-> ~ In c (map fst g).
Proof.
  induction g as [|[c0 b0] g IH]; simpl; [tauto|].
  destruct (String.eqb_spec c0 c) as [->|N]; [split; [discriminate | tauto]|].
  rewrite IH. tauto.
Qed.

(** One turn of the loop: the row has a time that parses and a CPU field; it
    joins the bucket of its series, or opens one, at the end, whose start is
    its own time. *)
Lemma group_row_spec g r g1 :
  group_row g r = Some g1 ->
  exists ts c rest t,
    r = ts :: c :: rest /\ Py.strptime ts = Some t /\
    ((exists b, lookup g c = Some b /\
        g1 = update g c {| start_time := start_time b;
                           rows := rows b ++ [Py.str_of_int (t - start_time b) :: c :: rest] |})
     \/ (lookup g c = None /\
         g1 = g ++ [(c, {| start_time := t;
                           rows := [Py.str_of_int (t - t) :: c :: rest] |})])).
Proof.
  unfold group_row. destruct r as [|ts [|c rest]]; try discriminate.
  cbn [nth_error obind]. destruct (Py.strptime ts) as [t|] eqn:T; [|discriminate].
  cbn [obind]. intros H.
  exists ts, c, rest, t. split; [reflexivity|]. split; [exact T|].
  destruct (lookup g c) as [b|] eqn:L.
  - rewrite L in H. cbn [obind set_first] in H. injection H as <-.
    left. now exists b.
  - rewrite lookup_app, L, String.eqb_refl in H.
    cbn [obind set_first start_time rows app] in H.
    rewrite update_app_new in H by assumption. injection H as <-.
    now right.
Qed.

Section OrderedPairs.
Context {A : Type}.

Lemma FOP_impl (R R1 : A -> A -> Prop) l :
  (forall a b, R a b -> R1 a b) -> ForallOrdPairs R l -> ForallOrdPairs R1 l.
Proof.
  intros H. induction 1 as [|a l Ha _ IH]; constructor; auto.
  eapply Forall_impl; [|exact Ha]. auto.
Qed.

Lemma FOP_app (R : A -> A -> Prop) l1 l2 :
  ForallOrdPairs R l1 -> ForallOrdPairs R l2 ->
  (forall x y, In x l1 -> In y l2 -> R x y) ->
  ForallOrdPairs R (l1 ++ l2).
Proof.
  induction 1 as [|a l Ha _ IH]; intros H2 H; simpl; auto.
  constructor.
  - apply Forall_app. split; auto.
    apply Forall_forall. intros y Hy. apply H; simpl; auto.
  - apply IH; auto. intros x y Hx Hy. apply H; simpl; auto.
Qed.

Lemma FOP_app_inv (R : A -> A -> Prop) l1 l2 :
  ForallOrdPairs R (l1 ++ l2) ->
  forall x y, In x l1 -> In y l2 -> R x y.
Proof.
  induction l1 as [|a l1 IH]; simpl; intros H x y Hx Hy; [tauto|].
  inversion H as [|? ? Ha Hl]; subst.
  destruct Hx as [<-|Hx].
  - rewrite Forall_forall in Ha. apply Ha. apply in_or_app. now right.
  - now apply IH.
Qed.

Lemma FOP_app_l (R : A -> A -> Prop) l1 l2 :
  ForallOrdPairs R (l1 ++ l2) -> ForallOrdPairs R l1.
Proof.
  induction l1 as [|a l1 IH]; simpl; intros H; [constructor|].
  inversion H as [|? ? Ha Hl]; subst. constructor; auto.
  now apply Forall_app in Ha.
Qed.

Lemma FOP_app_r (R : A -> A -> Prop) l1 l2 :
  ForallOrdPairs R (l1 ++ l2) -> ForallOrdPairs R l2.
Proof.
  induction l1 as [|a l1 IH]; simpl; intros H; auto.
  inversion H; subst. auto.
Qed.

End OrderedPairs.

Lemma FOP_flat_map {A B} (f : A -> list B) (R : A -> A -> Prop)
      (Q : B -> B -> Prop) l :
  ForallOrdPairs R l ->
  (forall a, In a l -> ForallOrdPairs Q (f a)) ->
  (forall a b x y, In a l -> In b l -> R a b -> In x (f a) -> In y (f b) -> Q x y) ->
  ForallOrdPairs Q (flat_map f l).
Proof.
  intros H. induction H as [|a l Ha Hl IH]; intros Hin Hout; simpl; [constructor|].
  apply FOP_app.
  - apply Hin. now left.
  - apply IH.
    + intros b Hb. apply Hin. now right.
    + intros b c x y Hb Hc. apply Hout; now right.
  - intros x y Hx Hy. apply in_flat_map in Hy as (b & Hb & Hy).
    rewrite Forall_forall in Ha. apply (Hout a b); auto; [now left | now right].
Qed.

Lemma series_of_app c t1 t2 :
  series_of c (t1 ++ t2) = series_of c t1 ++ series_of c t2.
Proof. apply filter_app. Qed.

Lemma series_of_In c t r : In r (series_of c t) <-> In r t /\ row_cpu r = c.
Proof. unfold series_of. rewrite filter_In, String.eqb_eq. tauto. Qed.

Lemma before_app t r c1 c2 : before t c1 c2 -> before (t ++ [r]) c1 c2.
Proof.
  intros (t1 & t2 & -> & H1 & (y & Hy & Ey)).
  exists t1, (t2 ++ [r]). rewrite app_assoc. repeat split; auto.
  exists y. split; auto. apply in_or_app. now left.
Qed.

Lemma grouped_inv_nil : grouped_inv [] [].
Proof.
  split; simpl; try constructor; try discriminate; reflexivity.
Qed.

Lemma series_of_snoc c1 t ts c rest :
  series_of c1 (t ++ [ts :: c :: rest]) =
  series_of c1 t ++ (if String.eqb c c1 then [ts :: c :: rest] else []).
Proof. now rewrite series_of_app. Qed.

Lemma out_app g1 g2 : out (g1 ++ g2) = out g1 ++ out g2.
Proof. apply flat_map_app. Qed.

Lemma length_out_update g c b b1 :
  lookup g c = Some b ->
  List.length (out (update g c b1)) + List.length (rows b) =
  List.length (out g) + List.length (rows b1).
Proof.
  induction g as [|[c0 b0] g IH]; simpl; [discriminate|].
  destruct (String.eqb c0 c).
  - intros E. injection E as ->. unfold out. simpl. rewrite !length_app. lia.
  - intros E. specialize (IH E). unfold out in *. simpl.
    rewrite !length_app. lia.
Qed.

(** The loop body keeps the invariant. *)
Lemma grouped_inv_step done g r g1 :
  grouped_inv done g -> group_row g r = Some g1 -> grouped_inv (done ++ [r]) g1.
Proof.
  intros [ND BK AB OR LN] H.
  apply group_row_spec in H
    as (ts & c & rest & t & -> & T & [(b & L & ->) | (L & ->)]).
  - (* the series has a bucket *)
    split.
    + now rewrite keys_update.
    + intros c1 b1. rewrite lookup_update.
      destruct (lookup g c1) as [b0|] eqn:L1; [|discriminate].
      intros E. injection E as <-. unfold bucket_ok. rewrite series_of_snoc.
      destruct (String.eqb_spec c1 c) as [->|N].
      * destruct (BK c b L) as (F2 & r0 & Hd & St).
        rewrite String.eqb_refl. split; cbn [start_time rows].
        -- apply Forall2_app; auto. repeat constructor.
           exists t. split; auto.
        -- exists r0. split; auto.
           destruct (series_of c done); [discriminate | exact Hd].
      * destruct (String.eqb_spec c c1); [congruence|].
        rewrite app_nil_r. now apply BK.
    + intros c1. rewrite lookup_update.
      destruct (lookup g c1) eqn:L1; [discriminate|]. intros _.
      rewrite series_of_snoc, (AB c1 L1).
      destruct (String.eqb_spec c c1); [congruence | reflexivity].
    + rewrite keys_update. eapply FOP_impl; [|exact OR].
      intros; now apply before_app.
    + pose proof (length_out_update g c b
        {| start_time := start_time b;
           rows := rows b ++ [Py.str_of_int (t - start_time b) :: c :: rest] |} L)
        as E.
      cbn [rows] in E. rewrite !length_app in *. simpl in *. lia.
  - (* the series is new *)
    split.
    + rewrite map_app. apply NoDup_app; auto.
      * repeat constructor. simpl; tauto.
      * simpl. intros a Ha [<-|[]]. now apply lookup_None_keys in L.
    + intros c1 b1. unfold bucket_ok. rewrite lookup_app, series_of_snoc.
      destruct (lookup g c1) as [b0|] eqn:L1.
      * intros E. injection E as <-.
        destruct (String.eqb_spec c c1); [congruence|].
        rewrite app_nil_r. now apply BK.
      * destruct (String.eqb_spec c c1) as [->|N]; [|discriminate].
        intros E. injection E as <-. rewrite (AB c1 L1).
        split; cbn [start_time rows app].
        -- repeat constructor. exists t. split; auto.
        -- eexists. split; [reflexivity | exact T].
    + intros c1. rewrite lookup_app.
      destruct (lookup g c1) eqn:L1; [discriminate|].
      destruct (String.eqb_spec c c1) as [->|N]; [discriminate|]. intros _.
      rewrite series_of_snoc, (AB c1 L1).
      destruct (String.eqb_spec c c1); [congruence | reflexivity].
    + rewrite map_app. apply FOP_app.
      * eapply FOP_impl; [|exact OR]. intros; now apply before_app.
      * repeat constructor.
      * intros x y Hx [<-|[]].
        destruct (lookup g x) as [bx|] eqn:Lx;
          [|now apply lookup_None_keys in Lx].
        destruct (BK x bx Lx) as (_ & r0 & Hd & _).
        exists done, [ts :: c :: rest]. repeat split.
        -- exists r0. apply series_of_In.
           destruct (series_of x done) eqn:E; [discriminate|].
           injection Hd as ->. now left.
        -- eexists. split; [now left | reflexivity].
    + rewrite out_app, !length_app, LN. reflexivity.
Qed.

Lemma grouped_inv_loop data : forall done g g1,
  grouped_inv done g -> group_loop data g = Some g1 ->
  grouped_inv (done ++ data) g1.
Proof.
  induction data as [|r data IH]; intros done g g1 I H; simpl in H.
  - injection H as <-. now rewrite app_nil_r.
  - destruct (group_row g r) as [g2|] eqn:E; [|discriminate]. simpl in H.
    replace (done ++ r :: data) with ((done ++ [r]) ++ data)
      by now rewrite <- app_assoc.
    eapply IH; [|exact H]. eapply grouped_inv_step; eauto.
Qed.

(** What the invariant says of the rows written at the end. *)
Lemma elapsed_row_cpu start p r : elapsed_row start p r -> row_cpu r = row_cpu p.
Proof.
  intros (t & _ & ->). unfold row_cpu. now destruct p as [|? [|? ?]].
Qed.

Lemma bucket_rows_cpu done c b :
  bucket_ok done c b -> Forall (fun r => row_cpu r = c) (rows b).
Proof.
  intros (F2 & _). revert F2.
  assert (H : Forall (fun p => row_cpu p = c) (series_of c done)).
  { apply Forall_forall. intros p Hp. now apply series_of_In in Hp. }
  revert H. generalize (series_of c done) (rows b).
  induction 2 as [|p r ps rs E _ IH]; constructor; inversion H; subst.
  - now rewrite (elapsed_row_cpu _ _ _ E).
  - now apply IH.
Qed.

Lemma series_of_all c t :
  Forall (fun r => row_cpu r = c) t -> series_of c t = t.
Proof.
  induction 1 as [|r t E _ IH]; simpl; auto.
  rewrite E, String.eqb_refl. now rewrite IH.
Qed.

Lemma series_of_none c c1 t :
  c1 <> c -> Forall (fun r => row_cpu r = c1) t -> series_of c t = [].
Proof.
  intros N. induction 1 as [|r t E _ IH]; simpl; auto.
  rewrite E. destruct (String.eqb_spec c1 c); [congruence | exact IH].
Qed.

Lemma series_of_out g c :
  NoDup (map fst g) ->
  (forall c1 b1, lookup g c1 = Some b1 -> Forall (fun r => row_cpu r = c1) (rows b1)) ->
  series_of c (out g) =
  match lookup g c with
  | Some b => rows b
  | None => []
  end.
Proof.
  induction g as [|[c0 b0] g IH]; intros ND H; simpl; auto.
  inversion ND as [|? ? Hc ND1]; subst.
  unfold out in *. simpl. rewrite series_of_app.
  assert (H0 : Forall (fun r => row_cpu r = c0) (rows b0)).
  { apply H. simpl. now rewrite String.eqb_refl. }
  assert (IH1 : series_of c (flat_map (fun cb => rows (snd cb)) g) =
                match lookup g c with Some b => rows b | None => [] end).
  { apply IH; auto. intros c1 b1 L. apply H. simpl.
    destruct (String.eqb_spec c0 c1) as [->|]; auto.
    apply lookup_None_keys in Hc. congruence. }
  rewrite IH1. destruct (String.eqb_spec c0 c) as [->|N].
  - rewrite series_of_all by assumption.
    apply lookup_None_keys in Hc. now rewrite Hc, app_nil_r.
  - now rewrite (series_of_none c c0) by assumption.
Qed.

Lemma FOP_map {A B} (f : A -> B) (R : B -> B -> Prop) l :
  ForallOrdPairs R (map f l) -> ForallOrdPairs (fun a b => R (f a) (f b)) l.
Proof.
  induction l as [|a l IH]; simpl; intros H; [constructor|].
  inversion H as [|? ? Ha Hl]; subst. constructor; auto.
  rewrite Forall_forall in *. intros x Hx. apply Ha. now apply in_map.
Qed.

Lemma FOP_same {A} (Q : A -> A -> Prop) (P : A -> Prop) l :
  (forall x y, P x -> P y -> Q x y) -> Forall P l -> ForallOrdPairs Q l.
Proof.
  intros H. induction 1 as [|a l Ha Hl IH]; constructor; auto.
  eapply Forall_impl; [|exact Hl]. auto.
Qed.

Lemma Forall2_In_r {A B} (R : A -> B -> Prop) l l1 y :
  Forall2 R l l1 -> In y l1 -> exists x, In x l /\ R x y.
Proof.
  induction 1 as [|a b l l1 Hab _ IH]; simpl; [tauto|].
  intros [<-|Hy]; [now exists a; auto|].
  destruct (IH Hy) as (x & Hx & Rx). exists x; auto.
Qed.

Lemma In_lookup g c b :
  NoDup (map fst g) -> In (c, b) g -> lookup g c = Some b.
Proof.
  induction g as [|[c0 b0] g IH]; simpl; [tauto|].
  intros ND [E|Hin]; inversion ND as [|? ? Hc ND1]; subst.
  - injection E as -> ->. now rewrite String.eqb_refl.
  - destruct (String.eqb_spec c0 c) as [->|]; auto.
    exfalso. apply Hc. change c with (fst (c, b)). now apply in_map.
Qed.

Section Grouped.
Variables (data : table) (g : grouped).
Hypothesis loop : group_loop data [] = Some g.

Lemma loop_inv : grouped_inv data g.
Proof. exact (grouped_inv_loop data [] [] g grouped_inv_nil loop). Qed.

Lemma loop_rows_cpu c b :
  lookup g c = Some b -> Forall (fun r => row_cpu r = c) (rows b).
Proof.
  intros L. eapply bucket_rows_cpu. now apply (inv_bucket _ _ loop_inv).
Qed.

(** The rows written for a series are those of the series, in order, with
    the time counted from the first one. *)
Lemma loop_series c :
  (series_of c data = [] /\ series_of c (out g) = []) \/
  (exists r0 start,
      hd_error (series_of c data) = Some r0 /\
      Py.strptime (row_time r0) = Some start /\
      Forall2 (elapsed_row start) (series_of c data) (series_of c (out g))).
Proof.
  rewrite (series_of_out g c (inv_nodup _ _ loop_inv) loop_rows_cpu).
  destruct (lookup g c) as [b|] eqn:L.
  - right. destruct (inv_bucket _ _ loop_inv c b L) as (F2 & r0 & Hd & St).
    now exists r0, (start_time b).
  - left. split; auto. now apply (inv_absent _ _ loop_inv).
Qed.

Lemma loop_length : List.length (out g) = List.length data.
Proof. exact (inv_length _ _ loop_inv). Qed.

(** Every row written is a row read, with another time. *)
Lemma loop_origin r :
  In r (out g) -> exists p start, In p data /\ elapsed_row start p r.
Proof.
  intros Hr.
  assert (Hs : In r (series_of (row_cpu r) (out g)))
    by now apply series_of_In.
  destruct (loop_series (row_cpu r)) as [(_ & E) | (r0 & start & _ & _ & F2)].
  - now rewrite E in Hs.
  - destruct (Forall2_In_r _ _ _ _ F2 Hs) as (p & Hp & Rp).
    exists p, start. split; auto. now apply series_of_In in Hp.
Qed.

(** Two rows written one after the other are of the same series or of
    series that appear in that order among the rows read. *)
Lemma loop_order :
  ForallOrdPairs
    (fun r1 r2 => row_cpu r1 = row_cpu r2 \/ before data (row_cpu r1) (row_cpu r2))
    (out g).
Proof.
  pose proof (inv_nodup _ _ loop_inv) as ND.
  unfold out.
  apply FOP_flat_map with (R := fun a b => before data (fst a) (fst b)).
  - apply FOP_map. exact (inv_order _ _ loop_inv).
  - intros [c b] Hin. simpl.
    apply FOP_same with (P := fun r => row_cpu r = c).
    + intros x y -> ->. now left.
    + apply loop_rows_cpu. now apply In_lookup.
  - intros [c1 b1] [c2 b2] x y H1 H2 Hb Hx Hy. simpl in *. right.
    pose proof (loop_rows_cpu c1 b1 (In_lookup _ _ _ ND H1)) as F1.
    pose proof (loop_rows_cpu c2 b2 (In_lookup _ _ _ ND H2)) as F2.
    rewrite Forall_forall in F1, F2.
    now rewrite (F1 x Hx), (F2 y Hy).
Qed.
End Grouped.

(** What [process_file] does to a file with a header that has a first
    column: nothing when the reader refuses a field or the loop raises, and
    otherwise the rows of the buckets under the header. *)
Lemma process_file_spec lg h h1 t :
  set_first h "time" = Some h1 ->
  process_file {| log_file := lg; csv_file := Some (h :: t) |} =
  match (if fields_fit (h :: t) then group_loop t [] else None) with
  | None => (Exited 1%Z, {| log_file := lg; csv_file := Some (h :: t) |})
  | Some g => (Returned tt, {| log_file := lg; csv_file := Some (h1 :: out g) |})
  end.
Proof.
  intros H. unfold process_file, bind. rewrite read_csv_spec.
  destruct (fields_fit (h :: t)); [|reflexivity].
  cbn [csv_file attempt ret fst snd]. rewrite H. cbn [attempt ret].
  destruct (group_loop t []) as [g|]; cbn [attempt ret sys_exit]; [|reflexivity].
  unfold open_w, writerow. cbn [csv_file log_file app].
  now rewrite writerows_spec.
Qed.

Lemma process_file_no_header lg t :
  process_file {| log_file := lg; csv_file := Some ([] :: t) |} =
  (Exited 1%Z, {| log_file := lg; csv_file := Some ([] :: t) |}).
Proof.
  unfold process_file, bind. rewrite read_csv_spec.
  now destruct (fields_fit ([] :: t)).
Qed.


(** ** The whole run *)

Lemma data_rows_nonblank lines : Forall (fun r => r <> []) (data_rows lines).
Proof.
  apply Forall_forall. intros r Hr.
  apply filter_In in Hr as (Hr & _). unfold parsed in Hr.
  apply in_map_iff in Hr as (l & <- & Hl). apply filter_In in Hl as (_ & Q).
  now apply qualifying_split.
Qed.

Lemma fields_fit_wide_header wide t :
  fields_fit (wide_header wide :: t) = fields_fit t.
Proof. now destruct wide. Qed.

Lemma fits_pad12 n : forallb fits n = true -> forallb fits (pad12 n) = true.
Proof.
  intros H. unfold pad12. apply forallb_forall. intros a Ha.
  apply in_map_iff in Ha as (i & <- & _).
  destruct (nth_in_or_default i n EmptyString) as [I | ->]; [|reflexivity].
  rewrite forallb_forall in H. now apply H.
Qed.

Lemma fields_fit_pad12 t : fields_fit t = true -> fields_fit (map pad12 t) = true.
Proof.
  rewrite !fields_fit_forall. intros H r Hr.
  apply in_map_iff in Hr as (n & <- & Hn). apply fits_pad12. now apply H.
Qed.

Lemma render_false t : map (render false) t = map pad12 t.
Proof. reflexivity. Qed.

(** The outcome of a run in terms of the parsed rows and of those that
    survive, [data_rows lines]: which stage stops it, if any, and what the CSV
    file holds then. *)
Lemma run_spec lines :
  run lines =
  if fields_fit (parsed lines) then
    match sorted_table (data_rows lines) with
    | None => (1%Z, Some (header :: data_rows lines))
    | Some [] => (1%Z, Some [])
    | Some (n0 :: rest) =>
        let sn := n0 :: rest in
        let wide := long n0 in
        if (wide || forallb (fun n => negb (long n)) sn)%bool then
          match (if fields_fit (map (render wide) sn)
                 then group_loop (map (render wide) sn) [] else None) with
          | None => (1%Z, Some (wide_header wide :: map (render wide) sn))
          | Some g => (0%Z, Some (wide_header wide :: out g))
          end
        else (1%Z, Some (header :: map pad12 (short_prefix sn)))
    end
  else (1%Z, Some (header :: parsed lines)).
Proof.
  unfold run, main, bind.
  rewrite convert_to_csv_spec, remove_cpu_rows_spec, text_mode_parsed,
    fields_fit_header.
  destruct (fields_fit (parsed lines)) eqn:F; [|reflexivity].
  change (filter (fun r => negb (is_cpu_row r)) (header :: parsed lines))
    with (header :: data_rows lines).
  rewrite sort_cpu_data_spec by apply data_rows_nonblank.
  rewrite (fields_fit_filter _ _ F : fields_fit (data_rows lines) = true).
  destruct (sorted_table (data_rows lines)) as [[|n0 rest]|]; try reflexivity.
  cbv zeta. destruct (long n0) eqn:W; cbn [orb].
  - rewrite (process_file_spec _ _ (wide_header true)) by reflexivity.
    rewrite fields_fit_wide_header.
    now destruct (if fields_fit _ then _ else _).
  - destruct (forallb (fun n => negb (long n)) (n0 :: rest)) eqn:A;
      [|reflexivity].
    rewrite short_prefix_all by assumption.
    change (map (render false) (n0 :: rest)) with (map pad12 (n0 :: rest)).
    change (wide_header false) with header.
    rewrite (process_file_spec _ _ header) by reflexivity.
    rewrite fields_fit_header.
    now destruct (if fields_fit _ then _ else _).
Qed.

(** ** The sort is a stable sort *)

Section StableSort.
Context {A : Type}.
Implicit Types (l : list (Z * A)) (x : A) (k : Z).

Lemma In_insert_keyed k x l y :
  In y (insert_keyed k x l) <-> y = (k, x) \/ In y l.
Proof.
  induction l as [|[k1 z] l IH]; simpl.
  - intuition congruence.
  - destruct (k <=? k1)%Z; simpl; rewrite ?IH; intuition congruence.
Qed.

Lemma In_sort_keyed l y : In y (sort_keyed l) <-> In y l.
Proof.
  induction l as [|[k x] l IH]; simpl; [tauto|].
  rewrite In_insert_keyed, IH. intuition congruence.
Qed.

Lemma length_insert_keyed k x l :
  List.length (insert_keyed k x l) = S (List.length l).
Proof.
  induction l as [|[k1 z] l IH]; simpl; auto.
  destruct (k <=? k1)%Z; simpl; auto.
Qed.

Lemma length_sort_keyed l : List.length (sort_keyed l) = List.length l.
Proof.
  induction l as [|[k x] l IH]; simpl; auto.
  now rewrite length_insert_keyed, IH.
Qed.

Lemma insert_keyed_sorted k x l :
  ForallOrdPairs (fun a b => (fst a <= fst b)%Z) l ->
  ForallOrdPairs (fun a b => (fst a <= fst b)%Z) (insert_keyed k x l).
Proof.
  induction 1 as [|[k1 z] l Ha Hl IH]; simpl.
  - repeat constructor.
  - destruct (k <=? k1)%Z eqn:E.
    + apply Z.leb_le in E. constructor; [|now constructor].
      constructor; [exact E|].
      eapply Forall_impl; [|exact Ha]. simpl. intros; lia.
    + apply Z.leb_gt in E. constructor; [|exact IH].
      apply Forall_forall. intros y Hy.
      apply In_insert_keyed in Hy as [->|Hy]; simpl; [lia|].
      rewrite Forall_forall in Ha. now apply Ha.
Qed.

Lemma sort_keyed_sorted l :
  ForallOrdPairs (fun a b => (fst a <= fst b)%Z) (sort_keyed l).
Proof.
  induction l as [|[k x] l IH]; simpl; [constructor|].
  now apply insert_keyed_sorted.
Qed.

(** Stability: elements with one and the same key keep their order. *)
Lemma filter_insert_keyed (p : Z * A -> bool) k x l :
  (p (k, x) = true -> forall y, In y l -> p y = true -> fst y = k) ->
  filter p (insert_keyed k x l) = filter p ((k, x) :: l).
Proof.
  induction l as [|[k1 z] l IH]; intros H; [reflexivity|].
  cbn [insert_keyed]. destruct (k <=? k1)%Z eqn:E; [reflexivity|].
  apply Z.leb_gt in E. cbn [filter] in *.
  rewrite IH by (intros Hp y Hy; apply H; simpl; auto).
  destruct (p (k, x)) eqn:Px; [|reflexivity].
  destruct (p (k1, z)) eqn:Pz; [|reflexivity].
  specialize (H eq_refl (k1, z) (or_introl eq_refl) Pz). simpl in H. lia.
Qed.

Lemma filter_sort_keyed (p : Z * A -> bool) l :
  (forall y z, In y l -> In z l -> p y = true -> p z = true -> fst y = fst z) ->
  filter p (sort_keyed l) = filter p l.
Proof.
  induction l as [|[k x] l IH]; intros H; [reflexivity|].
  cbn [sort_keyed]. rewrite filter_insert_keyed.
  - cbn [filter]. rewrite IH; [reflexivity|].
    intros y z Hy Hz. apply H; now right.
  - intros Px y Hy Hp. rewrite In_sort_keyed in Hy.
    apply (H y (k, x)); simpl; auto.
Qed.
End StableSort.

Lemma FOP_impl_In {A} (R R1 : A -> A -> Prop) l :
  ForallOrdPairs R l ->
  (forall a b, In a l -> In b l -> R a b -> R1 a b) ->
  ForallOrdPairs R1 l.
Proof.
  induction 1 as [|a l Ha _ IH]; intros H; constructor.
  - rewrite Forall_forall in *. intros b Hb.
    apply H; simpl; auto.
  - apply IH. intros b c Hb Hc. apply H; now right.
Qed.

Lemma FOP_map_intro {A B} (f : A -> B) (R : B -> B -> Prop) l :
  ForallOrdPairs (fun a b => R (f a) (f b)) l -> ForallOrdPairs R (map f l).
Proof.
  induction 1 as [|a l Ha _ IH]; simpl; constructor; auto.
  rewrite Forall_forall in *. intros y Hy.
  apply in_map_iff in Hy as (x & <- & Hx). now apply Ha.
Qed.

Lemma filter_map_snd {A B} (f : B -> bool) (l : list (A * B)) :
  filter f (map snd l) = map snd (filter (fun kx => f (snd kx)) l).
Proof.
  induction l as [|[k x] l IH]; simpl; auto.
  destruct (f x); simpl; now rewrite IH.
Qed.

Lemma filter_filter {A} (p q : A -> bool) l :
  filter p (filter q l) = filter (fun x => q x && p x)%bool l.
Proof.
  induction l as [|a l IH]; simpl; auto.
  destruct (q a); simpl; [destruct (p a)|]; now rewrite IH.
Qed.

Lemma omap_Forall2 {A B} (f : A -> option B) l r :
  omap f l = Some r -> Forall2 (fun a b => f a = Some b) l r.
Proof.
  revert r. induction l as [|a l IH]; simpl; intros r H.
  - injection H as <-. constructor.
  - destruct (f a) as [b|] eqn:E; [|discriminate]. simpl in H.
    destruct (omap f l) as [bs|]; [|discriminate]. simpl in H.
    injection H as <-. constructor; auto.
Qed.

Lemma sorted_by_spec {A} (keyf : A -> option Z) l so :
  sorted_by keyf l = Some so ->
  exists keyed,
    map snd keyed = l /\
    Forall (fun kx => keyf (snd kx) = Some (fst kx)) keyed /\
    so = map snd (sort_keyed keyed).
Proof.
  unfold sorted_by. destruct (omap _ l) as [keyed|] eqn:E; [|discriminate].
  simpl. intros H. injection H as <-. exists keyed.
  apply omap_Forall2 in E. split; [|split; [|reflexivity]].
  - induction E as [|a [k x] l keyed H _ IH]; simpl; auto.
    destruct (keyf a); [|discriminate]. simpl in H. injection H as -> ->.
    now rewrite IH.
  - induction E as [|a [k x] l keyed H _ IH]; constructor; auto.
    destruct (keyf a) eqn:K; [|discriminate]. simpl in H.
    injection H as -> ->. exact K.
Qed.

Lemma row_int_cpu n k : row_int n = Some k -> Py.int (row_cpu n) = Some k.
Proof.
  unfold row_int, row_cpu. destruct n as [|? [|c n]]; simpl; try discriminate.
  auto.
Qed.

Section Sorted.
Variables (t sn : table).
Hypothesis sorted : sorted_table t = Some sn.

Lemma sorted_parts :
  exists keyed,
    map snd keyed = filter (fun n => negb (is_all n)) t /\
    Forall (fun kx => row_int (snd kx) = Some (fst kx)) keyed /\
    sn = filter is_all t ++ map snd (sort_keyed keyed).
Proof.
  unfold sorted_table in sorted.
  destruct (sorted_by row_int _) as [so|] eqn:E; [|discriminate].
  simpl in sorted. injection sorted as <-.
  apply sorted_by_spec in E as (keyed & E1 & E2 & ->). now exists keyed.
Qed.

Lemma sorted_In n : In n sn <-> In n t.
Proof.
  destruct sorted_parts as (keyed & E1 & _ & ->).
  rewrite in_app_iff, filter_In.
  assert (E : In n (map snd (sort_keyed keyed)) <->
              In n (filter (fun n => negb (is_all n)) t)).
  { rewrite <- E1, !in_map_iff.
    split; intros (y & <- & Hy); exists y; split; auto;
      now apply In_sort_keyed. }
  rewrite E, filter_In. destruct (is_all n); simpl; intuition congruence.
Qed.

Lemma sorted_length : List.length sn = List.length t.
Proof.
  destruct sorted_parts as (keyed & E1 & _ & ->).
  rewrite length_app, length_map, length_sort_keyed.
  rewrite <- (length_map snd keyed), E1.
  clear. induction t as [|a l IH]; simpl; auto.
  destruct (is_all a); simpl; lia.
Qed.

(** The rows of a series keep their order. *)
Lemma sorted_series c : series_of c sn = series_of c t.
Proof.
  destruct sorted_parts as (keyed & E1 & E2 & ->).
  rewrite series_of_app. unfold series_of at 2.
  rewrite filter_map_snd, filter_sort_keyed,
    <- (filter_map_snd (fun r => String.eqb (row_cpu r) c)), E1.
  - unfold series_of. rewrite !filter_filter. unfold is_all.
    clear. induction t as [|a l IH]; simpl; auto.
    destruct (String.eqb_spec (row_cpu a) "all") as [E|N];
      destruct (String.eqb_spec (row_cpu a) c) as [E1|N1]; simpl;
      rewrite <- ?IH; auto.
    assert (Z : filter (fun x => (String.eqb (row_cpu x) "all"
                                  && String.eqb (row_cpu x) c)%bool) l = []).
    { clear IH. induction l as [|b l IH]; simpl; auto.
      destruct (String.eqb_spec (row_cpu b) "all") as [Eb|]; simpl; auto.
      destruct (String.eqb_spec (row_cpu b) c); [congruence | exact IH]. }
    now rewrite Z.
  - intros y z Hy Hz Py Pz. rewrite Forall_forall in E2.
    apply String.eqb_eq in Py, Pz.
    pose proof (row_int_cpu _ _ (E2 y Hy)) as Iy.
    pose proof (row_int_cpu _ _ (E2 z Hz)) as Iz.
    congruence.
Qed.

(** The sorted rows: 'all' first, then by integer value. *)
Lemma sorted_order :
  ForallOrdPairs (fun a b => precedes (row_cpu a) (row_cpu b)) sn.
Proof.
  destruct sorted_parts as (keyed & E1 & E2 & ->).
  assert (NA : forall kx, In kx keyed -> row_cpu (snd kx) <> "all").
  { intros kx Hk. assert (H : In (snd kx) (map snd keyed)) by now apply in_map.
    rewrite E1 in H. apply filter_In in H as (_ & H).
    unfold is_all in H. apply negb_true_iff, String.eqb_neq in H. exact H. }
  apply FOP_app.
  - apply FOP_same with (P := fun n => row_cpu n = "all").
    + intros x y Hx _. now left.
    + apply Forall_forall. intros n Hn. apply filter_In in Hn as (_ & H).
      now apply String.eqb_eq in H.
  - apply FOP_map_intro.
    eapply FOP_impl_In; [apply sort_keyed_sorted|].
    intros a b Ha Hb Le. rewrite In_sort_keyed in Ha, Hb. right. split.
    + now apply NA.
    + rewrite Forall_forall in E2. exists (fst a), (fst b).
      repeat split; auto; apply row_int_cpu; now apply E2.
  - intros x y Hx _. left. apply filter_In in Hx as (_ & H).
    now apply String.eqb_eq in H.
Qed.

(** Every CPU field is 'all' or an integer. *)
Lemma sorted_cpu n : In n t -> precedes (row_cpu n) (row_cpu n).
Proof.
  intros Hn. destruct sorted_parts as (keyed & E1 & E2 & _).
  destruct (is_all n) eqn:A.
  - left. now apply String.eqb_eq in A.
  - assert (H : In n (map snd keyed)).
    { rewrite E1. apply filter_In. now rewrite A. }
    apply in_map_iff in H as (kx & <- & Hk). rewrite Forall_forall in E2.
    right. split; [now apply String.eqb_neq in A|].
    exists (fst kx), (fst kx). pose proof (row_int_cpu _ _ (E2 kx Hk)).
    repeat split; auto. lia.
Qed.
End Sorted.

(** ** [int] reads back what [str] prints *)

Lemma all_digits_of_uint d : all_digits (NilEmpty.string_of_uint d) = true.
Proof. induction d; simpl; auto. Qed.

Lemma int_digits_all s : forall prev,
  all_digits s = true -> (s <> EmptyString \/ prev = true) ->
  Py.int_digits prev s = Some s.
Proof.
  induction s as [|c s IH]; simpl; intros prev D N.
  - destruct N as [N| ->]; [congruence | reflexivity].
  - apply andb_true_iff in D as (Dc & Ds). rewrite Dc.
    rewrite (IH true Ds) by now right. reflexivity.
Qed.

Lemma c_isspace_not_digit c : Py.c_isspace c = true -> Py.isdigit c = false.
Proof.
  unfold Py.c_isspace, Py.isdigit. generalize (nat_of_ascii c). intros n H.
  apply andb_false_iff.
  apply orb_true_iff in H. rewrite andb_true_iff, !Nat.leb_le, Nat.eqb_eq in H.
  rewrite !Nat.leb_gt. lia.
Qed.

Lemma drop_space_digits s : all_digits s = true -> Py.drop_space s = s.
Proof.
  induction s as [|c s IH]; simpl; auto. intros D.
  apply andb_true_iff in D as (Dc & Ds). rewrite (IH Ds).
  destruct s; auto.
  destruct (Py.c_isspace c) eqn:E; auto.
  apply c_isspace_not_digit in E. congruence.
Qed.

Lemma skip_space_digits s : all_digits s = true -> Py.skip_space s = s.
Proof.
  destruct s as [|c s]; simpl; auto. intros D.
  apply andb_true_iff in D as (Dc & _).
  destruct (Py.c_isspace c) eqn:E; auto.
  apply c_isspace_not_digit in E. congruence.
Qed.

(** The decimal of a positive number has no more digits than the number has
    bits. *)
Lemma nb_digits_double d :
  Decimal.nb_digits (Decimal.Little.double d) <= S (Decimal.nb_digits d) /\
  Decimal.nb_digits (Decimal.Little.succ_double d) <= S (Decimal.nb_digits d).
Proof. induction d; simpl; lia. Qed.

Lemma nb_digits_to_little_uint p :
  Decimal.nb_digits (Pos.to_little_uint p) <= Pos.size_nat p.
Proof.
  induction p as [p IH|p IH|]; simpl; auto.
  - pose proof (proj2 (nb_digits_double (Pos.to_little_uint p))). lia.
  - pose proof (proj1 (nb_digits_double (Pos.to_little_uint p))). lia.
Qed.

Lemma len_string_of_uint d :
  Py.len (NilEmpty.string_of_uint d) = Z.of_nat (Decimal.nb_digits d).
Proof. induction d; simpl; lia. Qed.

Lemma len_digits_of_pos p :
  (Py.len (NilEmpty.string_of_uint (Pos.to_uint p)) <= Z.of_nat (Pos.size_nat p))%Z.
Proof.
  rewrite len_string_of_uint. unfold Pos.to_uint.
  rewrite DecimalFacts.nb_digits_rev.
  pose proof (nb_digits_to_little_uint p). lia.
Qed.

Lemma len_string_of_uint_pos d :
  d <> Decimal.Nil -> (1 <= Py.len (NilEmpty.string_of_uint d))%Z.
Proof.
  intros N. destruct d; [congruence| ..]; cbn [NilEmpty.string_of_uint Py.len];
    match goal with |- (1 <= Z.succ (Py.len ?s))%Z => pose proof (len_nonneg s) end;
    lia.
Qed.

Lemma nat_literal_of_uint d :
  d <> Decimal.Nil ->
  (Py.len (NilEmpty.string_of_uint d) <= Py.max_str_digits)%Z ->
  Py.nat_literal (NilEmpty.string_of_uint d) = Some (Z.of_uint d).
Proof.
  intros N L. unfold Py.nat_literal.
  rewrite int_digits_all.
  - apply Z.leb_le in L. rewrite L. now rewrite NilEmpty.usu.
  - apply all_digits_of_uint.
  - left. destruct d; simpl; congruence.
Qed.

Lemma isdigit_not_sign c :
  Py.isdigit c = true -> Ascii.eqb c "-" = false /\ Ascii.eqb c "+" = false.
Proof.
  intros D. split; apply Ascii.eqb_neq; intros ->; discriminate.
Qed.

Lemma int_of_digits d :
  d <> Decimal.Nil ->
  (Py.len (NilEmpty.string_of_uint d) <= Py.max_str_digits)%Z ->
  Py.int (NilEmpty.string_of_uint d) = Some (Z.of_uint d).
Proof.
  intros N L. unfold Py.int.
  rewrite skip_space_digits, drop_space_digits by apply all_digits_of_uint.
  rewrite <- (nat_literal_of_uint d N L).
  pose proof (all_digits_of_uint d) as D.
  destruct (NilEmpty.string_of_uint d) as [|c r] eqn:E.
  - destruct d; simpl in E; congruence.
  - simpl in D. apply andb_true_iff in D as (Dc & _).
    now destruct (isdigit_not_sign c Dc) as (-> & ->).
Qed.

Lemma int_of_minus_digits d :
  d <> Decimal.Nil ->
  (Py.len (NilEmpty.string_of_uint d) <= Py.max_str_digits)%Z ->
  Py.int (String "-" (NilEmpty.string_of_uint d)) = Some (- Z.of_uint d)%Z.
Proof.
  intros N L. unfold Py.int.
  change (Py.skip_space (String "-" (NilEmpty.string_of_uint d)))
    with (String "-" (NilEmpty.string_of_uint d)).
  cbn [Py.drop_space]. rewrite drop_space_digits by apply all_digits_of_uint.
  assert (E : exists c r, NilEmpty.string_of_uint d = String c r).
  { destruct d; simpl; eauto. congruence. }
  destruct E as (c & r & E). rewrite E. cbn [Ascii.eqb Bool.eqb].
  rewrite <- E, nat_literal_of_uint by assumption. reflexivity.
Qed.

Lemma string_of_uint_nonnil d :
  d <> Decimal.Nil -> NilZero.string_of_uint d = NilEmpty.string_of_uint d.
Proof. destruct d; simpl; congruence. Qed.

Lemma size_nat_small p : (Z.pos p <= 86399)%Z -> Pos.size_nat p <= 17.
Proof.
  intros H. change 17 with (Pos.size_nat 86400).
  apply Pos.size_nat_monotone. lia.
Qed.

(** A difference of two times of day, as [str] prints it, is a short text *)
Lemma len_str_of_int z :
  (-86399 <= z <= 86399)%Z -> (1 <= Py.len (Py.str_of_int z) <= 18)%Z.
Proof.
  intros R. unfold Py.str_of_int. destruct z as [|p|p]; [simpl; lia| |];
    assert (B : (Z.pos p <= 86399)%Z) by lia;
    cbn [Z.to_int NilZero.string_of_int];
    pose proof (Unsigned.to_uint_nonnil p) as N;
    rewrite string_of_uint_nonnil by assumption;
    pose proof (len_digits_of_pos p) as L;
    pose proof (size_nat_small p B) as S;
    pose proof (len_string_of_uint_pos _ N);
    cbn [Py.len]; lia.
Qed.

(** and [int] reads it back. *)
Theorem int_str_of_int z :
  (-86399 <= z <= 86399)%Z -> Py.int (Py.str_of_int z) = Some z.
Proof.
  intros R. unfold Py.str_of_int. destruct z as [|p|p]; [reflexivity| |];
    cbn [Z.to_int NilZero.string_of_int];
    pose proof (Unsigned.to_uint_nonnil p) as N;
    rewrite string_of_uint_nonnil by assumption;
    pose proof (len_digits_of_pos p) as L;
    assert (B : (Z.pos p <= 86399)%Z) by lia;
    pose proof (size_nat_small p B) as S.
  - rewrite int_of_digits; [|assumption|unfold Py.max_str_digits; lia].
    unfold Z.of_uint. now rewrite Unsigned.of_to.
  - rewrite int_of_minus_digits; [|assumption|unfold Py.max_str_digits; lia].
    unfold Z.of_uint. now rewrite Unsigned.of_to.
Qed.

(** ** Times of day *)

Lemma digit_val_range c x : Py.digit_val c = Some x -> (0 <= x <= 9)%Z.
Proof.
  unfold Py.digit_val, Py.isdigit. generalize (nat_of_ascii c). intros n.
  destruct (48 <=? n) eqn:A; destruct (n <=? 57) eqn:B; simpl; try discriminate.
  apply Nat.leb_le in A, B. intros E. injection E as <-. lia.
Qed.

Lemma time_field_range hi s v r :
  (9 <= hi)%Z -> Py.time_field hi s = Some (v, r) -> (0 <= v <= hi)%Z.
Proof.
  intros H. unfold Py.time_field.
  destruct s as [|a [|b s]]; try discriminate.
  - destruct (Py.digit_val a) as [x|] eqn:A; [|discriminate].
    intros E. injection E as <- <-. apply digit_val_range in A. lia.
  - destruct (Py.digit_val a) as [x|] eqn:A; [|discriminate].
    apply digit_val_range in A.
    destruct (Py.digit_val b) as [y|] eqn:B.
    + apply digit_val_range in B.
      destruct (10 * x + y <=? hi)%Z eqn:L; intros E.
      * apply Z.leb_le in L. replace v with (10 * x + y)%Z by congruence. lia.
      * replace v with x by congruence. lia.
    + intros E; injection E as <- <-. lia.
Qed.

Lemma strptime_range s t : Py.strptime s = Some t -> (0 <= t <= 86399)%Z.
Proof.
  unfold Py.strptime.
  destruct (Py.time_field 23 s) as [[h s1]|] eqn:H; [|discriminate].
  destruct (Py.expect_colon s1) as [s2|]; [|discriminate].
  destruct (Py.time_field 59 s2) as [[m s3]|] eqn:M; [|discriminate].
  destruct (Py.expect_colon s3) as [s4|]; [|discriminate].
  destruct (Py.time_field 61 s4) as [[sec [|? ?]]|] eqn:S; try discriminate.
  destruct (sec <=? 59)%Z eqn:L; [|discriminate].
  apply time_field_range in H, M, S; try lia.
  apply Z.leb_le in L. intros E. injection E as <-. lia.
Qed.

Lemma fits_str_of_int z : (-86399 <= z <= 86399)%Z -> fits (Py.str_of_int z) = true.
Proof.
  intros R. unfold fits, field_size_limit. apply Z.leb_le.
  pose proof (len_str_of_int z R). lia.
Qed.

(** ** Runs that succeed *)

Lemma row_cpu_render wide n : row_cpu (render wide n) = row_cpu n.
Proof. reflexivity. Qed.

Lemma row_time_render wide n : row_time (render wide n) = row_time n.
Proof. reflexivity. Qed.

Lemma nth_render wide n i :
  i < 12 -> nth i (render wide n) EmptyString = nth i n EmptyString.
Proof.
  intros H. unfold render. rewrite app_nth1 by (unfold pad12; simpl; lia).
  do 12 (destruct i as [|i]; [reflexivity|]). lia.
Qed.

Lemma series_of_render wide c t :
  series_of c (map (render wide) t) = map (render wide) (series_of c t).
Proof.
  induction t as [|n t IH]; simpl; auto.
  rewrite row_cpu_render. destruct (String.eqb (row_cpu n) c); simpl;
    now rewrite IH.
Qed.

Lemma Forall2_map_l {A B C} (f : A -> B) (R : B -> C -> Prop) l l1 :
  Forall2 R (map f l) l1 -> Forall2 (fun a c => R (f a) c) l l1.
Proof.
  revert l1. induction l as [|a l IH]; simpl; intros l1 H;
    inversion H; subst; constructor; auto.
Qed.

Lemma run_success lines t :
  run lines = (0%Z, Some t) ->
  exists sn wide g,
    sorted_table (data_rows lines) = Some sn /\
    group_loop (map (render wide) sn) [] = Some g /\
    t = wide_header wide :: out g.
Proof.
  rewrite run_spec. destruct (fields_fit (parsed lines)); [|discriminate].
  destruct (sorted_table (data_rows lines)) as [[|n0 rest]|];
    try discriminate.
  cbv zeta. destruct (_ || _)%bool; [|discriminate].
  destruct (fields_fit (map _ _)); [|discriminate].
  destruct (group_loop _ _) as [g|] eqn:G; [|discriminate].
  intros H. injection H as <-. now exists (n0 :: rest), (long n0), g.
Qed.

(** In a run that succeeds every stage has read its file: no field of the
    sorted table is longer than the reader allows. *)
Lemma run_success_fit lines t :
  run lines = (0%Z, Some t) ->
  exists sn wide g,
    sorted_table (data_rows lines) = Some sn /\
    fields_fit (map (render wide) sn) = true /\
    group_loop (map (render wide) sn) [] = Some g /\
    t = wide_header wide :: out g.
Proof.
  rewrite run_spec. destruct (fields_fit (parsed lines)); [|discriminate].
  destruct (sorted_table (data_rows lines)) as [[|n0 rest]|];
    try discriminate.
  cbv zeta. destruct (_ || _)%bool; [|discriminate].
  destruct (fields_fit (map _ _)) eqn:F; [|discriminate].
  destruct (group_loop _ _) as [g|] eqn:G; [|discriminate].
  intros H. injection H as <-. now exists (n0 :: rest), (long n0), g.
Qed.

(** Series by series, the rows of the final table are the surviving parsed
    rows in their order, each with its time counted from the first. *)
Lemma run_series lines h f :
  run lines = (0%Z, Some (h :: f)) ->
  exists wide, forall c,
    (series_of c (data_rows lines) = [] /\ series_of c f = []) \/
    (exists n0 start,
        hd_error (series_of c (data_rows lines)) = Some n0 /\
        Py.strptime (row_time n0) = Some start /\
        Forall2 (emitted wide start) (series_of c (data_rows lines)) (series_of c f)).
Proof.
  intros H. apply run_success in H as (sn & wide & g & S & G & E).
  injection E as -> ->. exists wide. intros c.
  destruct (loop_series _ _ G c) as [(E1 & E2) | (r0 & start & Hd & St & F2)];
    rewrite series_of_render, (sorted_series _ _ S) in *.
  - left. split; auto. now destruct (series_of c (data_rows lines)).
  - right. destruct (series_of c (data_rows lines)) as [|n0 ns] eqn:E;
      [discriminate|].
    simpl in Hd. injection Hd as <-. exists n0, start.
    split; [reflexivity|]. split; [exact St|].
    apply Forall2_map_l in F2. exact F2.
Qed.

Lemma lookup_In g c b : lookup g c = Some b -> In (c, b) g.
Proof.
  induction g as [|[c0 b0] g IH]; simpl; [discriminate|].
  destruct (String.eqb_spec c0 c) as [->|]; auto.
  intros E. injection E as ->. now left.
Qed.

(** The rows of a series are written side by side. *)
Lemma loop_contiguous data g c :
  group_loop data [] = Some g ->
  exists pre post, out g = pre ++ series_of c (out g) ++ post.
Proof.
  intros G.
  rewrite (series_of_out g c (inv_nodup _ _ (loop_inv _ _ G)) (loop_rows_cpu _ _ G)).
  destruct (lookup g c) as [b|] eqn:L.
  - apply lookup_In, in_split in L as (g1 & g2 & ->).
    exists (out g1), (out g2). now rewrite out_app.
  - exists (out g), []. now rewrite app_nil_r.
Qed.

(** * The claims *)

(** C1. In the table a run emits, the first row of every series carries the
    elapsed time 0: the bucket of a series gets its [start_time] from the row
    that opens it. *)
Theorem first_row_of_series_is_zero lines h f c r :
  run lines = (0%Z, Some (h :: f)) ->
  hd_error (series_of c f) = Some r ->
  row_time r = "0".
Proof.
  intros H Hd. apply run_series in H as (wide & H).
  destruct (H c) as [(_ & E) | (n0 & start & Hn & St & F2)].
  - now rewrite E in Hd.
  - destruct F2 as [|n r1 ns rs (t & T & E) _]; [discriminate|].
    simpl in Hn, Hd. injection Hn as ->. injection Hd as <-.
    rewrite St in T. injection T as <-. now rewrite E, Z.sub_diag.
Qed.

Lemma first_row_of_series_is_zero_witness :
  run spec_example = (0%Z, Some (header :: spec_rows)) /\
  hd_error (series_of "0" spec_rows) =
    Some ["0"; "0"; "4.0"; "0"; "1.0"; "0"; "0"; "0"; "0"; "0"; "0"; "94.0"] /\
  row_time ["0"; "0"; "4.0"; "0"; "1.0"; "0"; "0"; "0"; "0"; "0"; "0"; "94.0"] = "0".
Proof.
  split; [vm_compute; reflexivity|]. split; [reflexivity|].
  apply (first_row_of_series_is_zero spec_example header spec_rows "0");
    vm_compute; reflexivity.
Defined.

(** C2, as amended.  In the table a run emits the rows of 'all' come first,
    then those of the numeric series by integer value of the CPU field, which
    never goes down from a row to a later one; the rows of a series stand
    side by side and in the order of the log.  (Two spellings of one integer
    are two series of equal value, so the order is not strict.) *)
Theorem final_table_order lines h f :
  run lines = (0%Z, Some (h :: f)) ->
  ForallOrdPairs (fun r1 r2 => precedes (row_cpu r1) (row_cpu r2)) f /\
  (forall c, exists pre post, f = pre ++ series_of c f ++ post) /\
  (exists wide, forall c,
      Forall2 (fun n r => tl r = tl (render wide n))
              (series_of c (data_rows lines)) (series_of c f)).
Proof.
  intros H. pose proof (run_series _ _ _ H) as (wide0 & Ser).
  apply run_success in H as (sn & wide & g & S & G & E).
  injection E as -> ->. split; [|split].
  - eapply FOP_impl_In; [exact (loop_order _ _ G)|].
    intros r1 r2 H1 H2 [Same | (t1 & t2 & E & (x & Hx & Ex) & (y & Hy & Ey))].
    + rewrite <- Same.
      apply (loop_origin _ _ G) in H1 as (p & start & Hp & El).
      rewrite (elapsed_row_cpu _ _ _ El).
      apply in_map_iff in Hp as (n & <- & Hn).
      rewrite row_cpu_render.
      apply (sorted_cpu _ _ S). exact (proj1 (sorted_In _ _ S n) Hn).
    + rewrite <- Ex, <- Ey.
      pose proof (FOP_map_intro (render wide)
                    (fun a b => precedes (row_cpu a) (row_cpu b)) sn
                    (sorted_order _ _ S)) as O.
      rewrite E in O. exact (FOP_app_inv _ _ _ O x y Hx Hy).
  - intros c. exact (loop_contiguous _ _ c G).
  - exists wide0. intros c.
    destruct (Ser c) as [(-> & ->) | (n0 & start & _ & _ & F2)];
      [constructor|].
    eapply Forall2_impl; [|exact F2]. intros n r (t & _ & ->). reflexivity.
Qed.

Lemma final_table_order_witness :
  run spec_example = (0%Z, Some (header :: spec_rows)) /\
  ForallOrdPairs (fun r1 r2 => precedes (row_cpu r1) (row_cpu r2)) spec_rows.
Proof.
  split; [vm_compute; reflexivity|].
  apply (final_table_order spec_example header spec_rows).
  vm_compute; reflexivity.
Defined.

(** C2, as stated, fails: '1' and '01' are two series, each with its own
    bucket, and both have the integer value 1. *)
Lemma final_table_order_counterexample :
  run same_int_lines = (0%Z, Some (header :: same_int_rows)) /\
  ~ ForallOrdPairs (fun r1 r2 => strictly_precedes (row_cpu r1) (row_cpu r2))
      same_int_rows.
Proof.
  split; [vm_compute; reflexivity|].
  intros H. inversion H as [|? ? Ha _]; subst.
  inversion Ha as [|? ? P _]; subst.
  destruct P as [E | (_ & a & b & Ia & Ib & [E | L])]; try discriminate.
  vm_compute in Ia, Ib. injection Ia as <-. injection Ib as <-. lia.
Qed.

(** C3, as amended.  [convert_to_csv] counts no tokens: it never raises, it
    always writes the CSV file, and every qualifying line, short or not, is in
    it as the row of its tokens. *)
Theorem parser_keeps_short_lines lg o line :
  In line lg -> qualifying line = true ->
  exists t,
    convert_to_csv {| log_file := lg; csv_file := o |} =
      (Returned tt, {| log_file := lg; csv_file := Some (header :: t) |}) /\
    In (Py.split line) t.
Proof.
  intros Hl Q. exists (parsed lg). split; [apply convert_to_csv_spec|].
  unfold parsed. apply in_map. now apply filter_In.
Qed.

Lemma parser_keeps_short_lines_witness :
  In short_line [short_line] /\ qualifying short_line = true /\
  exists t,
    convert_to_csv {| log_file := [short_line]; csv_file := None |} =
      (Returned tt, {| log_file := [short_line]; csv_file := Some (header :: t) |}) /\
    In (Py.split short_line) t.
Proof.
  split; [now left|]. split; [reflexivity|].
  apply (parser_keeps_short_lines [short_line] None short_line);
    [now left | reflexivity].
Defined.

(** C3, as stated, fails: a line of eight tokens goes through the whole run,
    which ends with exit code 0 and a table where the missing columns are
    empty. *)
Lemma short_line_counterexample :
  qualifying short_line = true /\
  List.length (Py.split short_line) = 8 /\
  run [short_line] =
    (0%Z, Some [header;
                ["0"; "all"; "5.0"; "0"; "1.0"; "0"; "0"; "0"; ""; ""; ""; ""]]) /\
  ~ rejected [short_line].
Proof.
  repeat split; try (vm_compute; reflexivity).
  intros (H & _). vm_compute in H. congruence.
Qed.

Lemma In_short_prefix n t : In n (short_prefix t) -> In n t.
Proof.
  induction t as [|a t IH]; simpl; auto.
  destruct (long a); simpl; [tauto|]. intros [->|H]; auto.
Qed.

Lemma data_rows_origin lines n :
  In n (data_rows lines) ->
  exists l, In l lines /\ qualifying l = true /\ n = Py.split l.
Proof.
  intros H. apply filter_In in H as (H & _). unfold parsed in H.
  apply in_map_iff in H as (l & <- & Hl). apply filter_In in Hl as (Hl & Q).
  now exists l.
Qed.

(** C4, as amended.  A run ends with exit code 0 or 1, and in both cases the
    CSV file exists: every stage rewrites the same path, and a stage that
    fails leaves what was written last.  After a failure the rows of the file,
    if any, still carry the time of day of their line, not an elapsed time. *)
Theorem failed_run_leaves_intermediate_file lines code f :
  run lines = (code, f) ->
  (code = 0 \/ code = 1)%Z /\
  exists t, f = Some t /\
    (code = 1%Z ->
     Forall (fun r => exists l, In l lines /\ qualifying l = true /\
                                row_time r = hd EmptyString (Py.split l))
            (tl t)).
Proof.
  rewrite run_spec.
  assert (P : forall n, In n (parsed lines) ->
                exists l, In l lines /\ qualifying l = true /\
                          row_time n = hd EmptyString (Py.split l)).
  { intros n Hn. unfold parsed in Hn.
    apply in_map_iff in Hn as (l & <- & Hl). apply filter_In in Hl as (Hl & Q).
    exists l. repeat split; auto. unfold row_time. now destruct (Py.split l). }
  assert (O : forall n, In n (data_rows lines) ->
                exists l, In l lines /\ qualifying l = true /\
                          row_time n = hd EmptyString (Py.split l)).
  { intros n Hn. apply P. now apply filter_In in Hn. }
  destruct (fields_fit (parsed lines)).
  2:{ intros E. injection E as <- <-. split; [now right|].
      eexists. split; [reflexivity|]. intros _.
      cbn [tl]. apply Forall_forall. exact P. }
  destruct (sorted_table (data_rows lines)) as [[|n0 rest]|] eqn:S.
  - intros E. injection E as <- <-. split; [now right|].
    exists []. split; auto.
  - cbv zeta. destruct (_ || _)%bool.
    + destruct (if fields_fit _ then _ else _) as [g|];
        intros E; injection E as <- <-.
      * split; [now left|]. eexists. split; [reflexivity | discriminate].
      * split; [now right|]. eexists. split; [reflexivity|]. intros _.
        cbn [tl]. apply Forall_forall. intros r Hr.
        change (In r (map (render (long n0)) (n0 :: rest))) in Hr.
        apply in_map_iff in Hr as (n & <- & Hn). rewrite row_time_render.
        apply O. exact (proj1 (sorted_In _ _ S n) Hn).
    + intros E; injection E as <- <-. split; [now right|].
      eexists. split; [reflexivity|]. intros _.
      cbn [tl]. apply Forall_forall. intros r Hr.
      apply in_map_iff in Hr as (n & <- & Hn).
      change (In n (short_prefix (n0 :: rest))) in Hn.
      apply In_short_prefix in Hn.
      change (row_time (pad12 n)) with (row_time n).
      apply O. exact (proj1 (sorted_In _ _ S n) Hn).
  - intros E. injection E as <- <-. split; [now right|].
    eexists. split; [reflexivity|]. intros _.
    cbn [tl]. apply Forall_forall. exact O.
Qed.

Lemma failed_run_leaves_intermediate_file_witness :
  run bad_cpu_lines =
    (1%Z, Some [header;
                ["08:00:01"; "abc"; "5.0"; "0"; "1.0"; "0"; "0"; "0"; "0"; "0";
                 "0"; "93.0"]]) /\
  (1 = 0 \/ 1 = 1)%Z.
Proof.
  split; [vm_compute; reflexivity|].
  eapply (failed_run_leaves_intermediate_file bad_cpu_lines 1%Z).
  vm_compute; reflexivity.
Defined.

(** C4, as stated, fails: when [sort_cpu_data] meets a CPU field that is not
    an integer the process ends with exit code 1, and the CSV file holds what
    [remove_cpu_rows] wrote, unsorted and with the time of day. *)
Lemma bad_cpu_counterexample :
  run bad_cpu_lines =
    (1%Z, Some [header;
                ["08:00:01"; "abc"; "5.0"; "0"; "1.0"; "0"; "0"; "0"; "0"; "0";
                 "0"; "93.0"]]) /\
  ~ no_output_on_error bad_cpu_lines.
Proof.
  split; [vm_compute; reflexivity|].
  intros H.
  assert (E : fst (run bad_cpu_lines) <> 0%Z) by (vm_compute; discriminate).
  destruct (H E) as [X|X]; vm_compute in X; discriminate.
Qed.

(** C5. Running [remove_cpu_rows] on the file it has written changes
    nothing: the second run ends as the first did and leaves the same file. *)
Theorem remove_cpu_rows_idempotent f :
  remove_cpu_rows (snd (remove_cpu_rows f)) = remove_cpu_rows f.
Proof.
  destruct f as [lg [t|]]; [|reflexivity].
  rewrite remove_cpu_rows_spec.
  destruct (fields_fit (text_mode t)) eqn:F; cbn [snd].
  - rewrite remove_cpu_rows_spec.
    assert (T : text_mode (filter (fun r => negb (is_cpu_row r)) (text_mode t)) =
                filter (fun r => negb (is_cpu_row r)) (text_mode t)).
    { apply text_mode_id. apply Forall_forall. intros r Hr.
      apply filter_In in Hr as (Hr & _).
      pose proof (text_mode_no_cr t) as N. rewrite Forall_forall in N.
      now apply N. }
    rewrite T, (fields_fit_filter _ _ F).
    rewrite filter_filter. do 3 f_equal. apply filter_ext.
    intros r. now destruct (is_cpu_row r).
  - now rewrite remove_cpu_rows_spec, F.
Qed.

Lemma is_cpu_row_spec r : is_cpu_row r = true <-> header_repeat r.
Proof.
  unfold is_cpu_row, header_repeat. split.
  - destruct r as [|t [|c rest]]; try discriminate. cbn [List.length nth].
    intros H. apply andb_true_iff in H as (H & Ht).
    apply andb_true_iff in H as (_ & Hc).
    exists t, c, rest. split; [reflexivity|]. split.
    + now apply String.eqb_eq.
    + now apply String.eqb_neq, negb_true_iff.
  - intros (t & c & rest & -> & Hc & Ht). cbn [List.length nth].
    rewrite Hc. apply String.eqb_neq in Ht. now rewrite Ht.
Qed.

Lemma header_repeat_tokens r :
  Forall token r -> (header_repeat r <-> literal_header_repeat r).
Proof.
  intros T. unfold header_repeat, literal_header_repeat. split.
  - intros (t & c & rest & -> & Hc & Ht).
    inversion T as [|? ? (_ & St) T1]; subst.
    inversion T1 as [|? ? (_ & Sc) _]; subst.
    rewrite (strip_no_space c Sc) in Hc. rewrite (strip_no_space t St) in Ht.
    cbn [nth_error]. split; congruence.
  - destruct r as [|t [|c rest]]; cbn [nth_error]; intros (Hc & Ht);
      try discriminate.
    inversion T as [|? ? (_ & St) _]; subst.
    exists t, c, rest. split; [reflexivity|]. injection Hc as ->.
    rewrite (strip_no_space t St). split; [reflexivity | congruence].
Qed.

Lemma header_tokens : Forall token header.
Proof. repeat constructor; discriminate. Qed.

Lemma parsed_tokens lg : Forall (Forall token) (header :: parsed lg).
Proof.
  constructor; [exact header_tokens|].
  apply Forall_forall. intros r Hr. now apply (parsed_rows_are_tokens_aux lg r).
Qed.

(** C6. [remove_cpu_rows] drops a row exactly when its second field is 'CPU'
    and its first field is not 'time', and keeps the other rows, the header
    among them, in their order.  So it is on every file whose rows are rows of
    tokens, as are the header and the rows the parser writes, once the reader
    has accepted the file; when the reader refuses a field the stage ends with
    exit code 1 and leaves the file as it was.  (On any file at all the two
    fields are compared with their surrounding whitespace dropped, which is no
    change on tokens, and the rows are taken as the reader delivers them in
    text mode, which is no change on tokens either.) *)
Theorem remove_cpu_rows_rule :
  exists keep : row -> bool,
    (forall r, Forall token r -> (keep r = false <-> literal_header_repeat r)) /\
    (forall r, nth_error r 0 = Some "time" -> keep r = true) /\
    (forall lg, Forall (Forall token) (header :: parsed lg)) /\
    (forall lg t, Forall (Forall token) t ->
       remove_cpu_rows {| log_file := lg; csv_file := Some t |} =
       if fields_fit t
       then (Returned tt, {| log_file := lg; csv_file := Some (filter keep t) |})
       else (Exited 1%Z, {| log_file := lg; csv_file := Some t |})) /\
    (forall r, keep r = false <-> header_repeat r) /\
    (forall lg t,
       remove_cpu_rows {| log_file := lg; csv_file := Some t |} =
       if fields_fit (text_mode t)
       then (Returned tt,
             {| log_file := lg; csv_file := Some (filter keep (text_mode t)) |})
       else (Exited 1%Z, {| log_file := lg; csv_file := Some t |})).
Proof.
  exists (fun r => negb (is_cpu_row r)).
  split; [|split; [|split; [|split; [|split]]]].
  - intros r T. rewrite negb_false_iff, is_cpu_row_spec.
    now apply header_repeat_tokens.
  - intros r H. destruct r as [|t0 rest]; [discriminate H|].
    cbn [nth_error] in H. injection H as ->.
    unfold is_cpu_row. cbn [nth].
    replace (String.eqb (Py.strip "time") "time") with true by reflexivity.
    cbn [negb]. now rewrite andb_false_r.
  - apply parsed_tokens.
  - intros lg t T. rewrite remove_cpu_rows_spec.
    assert (E : text_mode t = t).
    { apply text_mode_id. eapply Forall_impl; [|exact T]. apply tokens_no_cr. }
    now rewrite E.
  - intros r. rewrite negb_false_iff. apply is_cpu_row_spec.
  - intros lg t. apply remove_cpu_rows_spec.
Qed.

(** Off the parser's rows the dropped whitespace shows: in a file made by
    hand, a row whose second field is ' CPU', with a blank, is dropped too. *)
Lemma padded_cpu_row_is_dropped :
  remove_cpu_rows {| log_file := [];
                     csv_file := Some [header; ["08:00:01"; " CPU"; "%usr"]] |} =
    (Returned tt, {| log_file := []; csv_file := Some [header] |}) /\
  ~ literal_header_repeat ["08:00:01"; " CPU"; "%usr"].
Proof.
  split; [vm_compute; reflexivity|]. intros (H & _). discriminate.
Qed.

(** C7. The table a run emits has as many data rows as the log has
    qualifying lines, less the parsed rows that [remove_cpu_rows] drops. *)
Theorem final_row_count lines t :
  run lines = (0%Z, Some t) ->
  List.length (tl t) =
  List.length (filter qualifying lines)
  - List.length (filter is_cpu_row (parsed lines)).
Proof.
  intros H. apply run_success in H as (sn & wide & g & S & G & ->).
  cbn [tl]. rewrite (loop_length _ _ G), length_map, (sorted_length _ _ S).
  unfold data_rows.
  assert (E : List.length (parsed lines) = List.length (filter qualifying lines))
    by (unfold parsed; apply length_map).
  rewrite <- E.
  assert (P : forall l : table,
             List.length (filter (fun r => negb (is_cpu_row r)) l)
             + List.length (filter is_cpu_row l) = List.length l).
  { induction l as [|a l IH]; simpl; auto.
    destruct (is_cpu_row a); simpl; lia. }
  specialize (P (parsed lines)). lia.
Qed.

Lemma final_row_count_witness :
  run spec_example = (0%Z, Some (header :: spec_rows)) /\
  List.length (tl (header :: spec_rows)) = 5 - 1.
Proof.
  split; [vm_compute; reflexivity|].
  apply (final_row_count spec_example (header :: spec_rows)).
  vm_compute; reflexivity.
Defined.

Lemma StronglySorted_shift start ts :
  StronglySorted Z.le ts ->
  StronglySorted Z.le (map (fun t => t - start)%Z ts).
Proof.
  induction 1 as [|t ts _ IH Ht]; simpl; constructor; auto.
  rewrite Forall_forall in *. intros z Hz.
  apply in_map_iff in Hz as (u & <- & Hu). specialize (Ht u Hu). lia.
Qed.

Lemma emitted_elapsed wide start ns rs : forall ts,
  (0 <= start <= 86399)%Z ->
  Forall2 (emitted wide start) ns rs ->
  map (fun n => Py.strptime (row_time n)) ns = map Some ts ->
  map (fun r => Py.int (row_time r)) rs =
  map Some (map (fun t => t - start)%Z ts).
Proof.
  intros ts R F2. revert ts.
  induction F2 as [|n r ns rs (t & T & ->) _ IH]; intros [|u ts] E;
    try discriminate; [reflexivity|].
  pose proof (strptime_range _ _ T) as RT.
  simpl in E. injection E as E1 E2. rewrite T in E1. injection E1 as ->.
  simpl. rewrite (IH ts E2). unfold row_time at 1. cbn [nth].
  rewrite int_str_of_int by lia. reflexivity.
Qed.

(** C8, as amended.  When the times of day of a series never go down from
    one line of the log to the next (the capture does not run over midnight),
    the elapsed times of that series in the emitted table never go down
    either. *)
Theorem elapsed_nondecreasing lines h f c ts :
  run lines = (0%Z, Some (h :: f)) ->
  map (fun n => Py.strptime (row_time n)) (series_of c (data_rows lines)) =
    map Some ts ->
  StronglySorted Z.le ts ->
  nondecreasing_elapsed c f.
Proof.
  intros H E Srt. apply run_series in H as (wide & H).
  unfold nondecreasing_elapsed.
  destruct (H c) as [(_ & ->) | (n0 & start & _ & St & F2)].
  - exists []. split; [reflexivity | constructor].
  - exists (map (fun t => t - start)%Z ts). split.
    + apply strptime_range in St. eapply emitted_elapsed; eauto.
    + now apply StronglySorted_shift.
Qed.

Lemma elapsed_nondecreasing_witness :
  run spec_example = (0%Z, Some (header :: spec_rows)) /\
  map (fun n => Py.strptime (row_time n))
      (series_of "all" (data_rows spec_example)) = map Some [28801; 28802]%Z /\
  StronglySorted Z.le [28801; 28802]%Z /\
  nondecreasing_elapsed "all" spec_rows.
Proof.
  assert (S : StronglySorted Z.le [28801; 28802]%Z).
  { repeat constructor. discriminate. }
  split; [vm_compute; reflexivity|]. split; [vm_compute; reflexivity|].
  split; [exact S|].
  apply (elapsed_nondecreasing spec_example header spec_rows "all"
                               [28801; 28802]%Z);
    [vm_compute; reflexivity | vm_compute; reflexivity | exact S].
Defined.

(** C8, as stated, fails: the time of day has no date, so over midnight the
    elapsed time of the second row is 0:00:00 less 23:59:59, a negative
    number of seconds. *)
Lemma midnight_counterexample :
  run midnight_lines = (0%Z, Some (header :: midnight_rows)) /\
  ~ nondecreasing_elapsed "all" midnight_rows.
Proof.
  split; [vm_compute; reflexivity|].
  intros (zs & E & S). vm_compute in E.
  destruct zs as [|a [|b [|? ?]]]; try discriminate.
  injection E as <- <-.
  inversion S as [|? ? _ F]; subst. inversion F as [|? ? L _]; subst.
  apply L. reflexivity.
Qed.

(** C9. A log without qualifying line makes the run fail: [sort_cpu_data]
    finds no row, has already truncated the file when it asks for the first
    one, and the process ends with exit code 1 and an empty CSV file, without
    even a header. *)
Theorem empty_input_fails lines :
  (forall l, In l lines -> qualifying l = false) ->
  run lines = (1%Z, Some []).
Proof.
  intros H. rewrite run_spec.
  assert (E : parsed lines = []).
  { unfold parsed.
    replace (filter qualifying lines) with (@nil string); [reflexivity|].
    symmetry. induction lines as [|l lines IH]; simpl; auto.
    rewrite (H l) by now left. apply IH. intros; apply H; now right. }
  unfold data_rows. now rewrite E.
Qed.

Lemma empty_input_fails_witness :
  (forall l, In l noise_lines -> qualifying l = false) /\
  run noise_lines = (1%Z, Some []).
Proof.
  assert (Q : forall l, In l noise_lines -> qualifying l = false).
  { intros l [<-|[<-|[<-|[]]]]; reflexivity. }
  split; [exact Q|]. exact (empty_input_fails noise_lines Q).
Defined.

(** C10, as amended.  Every data row of the emitted table comes from a
    qualifying line of the log, and in each of the columns 1 to 11 of the
    header it has the token of that line in that place, or nothing when the
    line has no such token.  (Only the time is rewritten; the tokens beyond
    the twelfth are not columns of their own.) *)
Theorem fields_passed_through lines h f r :
  run lines = (0%Z, Some (h :: f)) ->
  In r f ->
  exists l, In l lines /\ qualifying l = true /\
            forall i, 1 <= i < 12 ->
                      nth i r EmptyString = nth i (Py.split l) EmptyString.
Proof.
  intros H Hr. apply run_success in H as (sn & wide & g & S & G & E).
  injection E as -> ->.
  apply (loop_origin _ _ G) in Hr as (p & start & Hp & (t & _ & ->)).
  apply in_map_iff in Hp as (n & <- & Hn).
  apply (sorted_In _ _ S) in Hn.
  apply data_rows_origin in Hn as (l & Hl & Q & ->).
  exists l. repeat split; auto. intros i Hi.
  rewrite <- (nth_render wide (Py.split l) i) by lia.
  destruct i as [|i]; [lia|]. unfold render, pad12. reflexivity.
Qed.

Lemma fields_passed_through_witness :
  run [short_line] =
    (0%Z, Some [header;
                ["0"; "all"; "5.0"; "0"; "1.0"; "0"; "0"; "0"; ""; ""; ""; ""]]) /\
  exists l, In l [short_line] /\ qualifying l = true /\
            forall i, 1 <= i < 12 ->
              nth i ["0"; "all"; "5.0"; "0"; "1.0"; "0"; "0"; "0"; ""; ""; ""; ""]
                  EmptyString
              = nth i (Py.split l) EmptyString.
Proof.
  split; [vm_compute; reflexivity|].
  apply (fields_passed_through [short_line] header
           [["0"; "all"; "5.0"; "0"; "1.0"; "0"; "0"; "0"; ""; ""; ""; ""]]);
    [vm_compute; reflexivity | now left].
Defined.

(** C10, as stated, fails: of a line of thirteen tokens the thirteenth does
    not reach the table; [DictReader] keeps it in a list under its [restkey],
    and [DictWriter] prints that list. *)
Lemma long_line_counterexample :
  run [long_line] = (0%Z, Some [wide_header true; long_row]) /\
  ~ passed_unchanged [long_line] [long_row].
Proof.
  split; [vm_compute; reflexivity|].
  intros H. destruct (H long_row (or_introl eq_refl)) as (l & [<-|[]] & _ & E).
  specialize (E 12 ltac:(lia)). vm_compute in E. discriminate.
Qed.


(** * Further properties of the code *)

(** ** The parser *)

(** X1. [convert_to_csv] always returns, and every data row it writes is a
    non-empty list of tokens (non-empty strings without whitespace) whose
    first one begins with a digit. *)
Theorem parsed_rows_are_tokens lg o :
  exists t,
    convert_to_csv {| log_file := lg; csv_file := o |} =
      (Returned tt, {| log_file := lg; csv_file := Some (header :: t) |}) /\
    Forall (fun r => Forall token r /\
                     exists first rest, r = first :: rest /\
                                        first_isdigit first = true) t.
Proof.
  exists (parsed lg). split; [apply convert_to_csv_spec|].
  apply Forall_forall. intros r Hr. exact (parsed_rows_are_tokens_aux lg r Hr).
Qed.

Lemma parsed_filter_tokens l :
  parsed l =
  filter (fun ts => match ts with
                    | t :: _ => first_isdigit t
                    | [] => false
                    end) (map Py.split l).
Proof.
  unfold parsed. induction l as [|a l IH]; simpl; auto.
  unfold qualifying at 1. destruct (match Py.split a with
                                    | t :: _ => first_isdigit t
                                    | [] => false
                                    end); simpl; now rewrite IH.
Qed.

Lemma parsed_split l1 l2 :
  map Py.split l1 = map Py.split l2 -> parsed l1 = parsed l2.
Proof. intros E. now rewrite !parsed_filter_tokens, E. Qed.

Lemma run_parsed l1 l2 : parsed l1 = parsed l2 -> run l1 = run l2.
Proof. intros E. rewrite !run_spec. unfold data_rows. now rewrite E. Qed.

(** X2. Only the tokens of the lines matter: two logs whose lines split
    into the same tokens (they differ in the blanks between and around them)
    give the same exit code and the same CSV file. *)
Theorem only_tokens_matter l1 l2 :
  map Py.split l1 = map Py.split l2 -> run l1 = run l2.
Proof.
  intros E. apply run_parsed. now apply parsed_split.
Qed.

Lemma only_tokens_matter_witness :
  map Py.split ["  08:00:01   all 5.0 "] = map Py.split ["08:00:01 all 5.0"] /\
  run ["  08:00:01   all 5.0 "] = run ["08:00:01 all 5.0"].
Proof.
  split; [reflexivity|].
  apply (only_tokens_matter ["  08:00:01   all 5.0 "] ["08:00:01 all 5.0"]).
  reflexivity.
Defined.

(** X3. Lines that do not qualify (blank lines, the banner, the column
    titles, the 'Average:' lines) have no influence on the run: taking them
    out of the log changes neither the exit code nor the CSV file. *)
Theorem non_qualifying_lines_ignored lines :
  run (filter qualifying lines) = run lines.
Proof.
  apply run_parsed. unfold parsed.
  f_equal. induction lines as [|l lines IH]; simpl; auto.
  destruct (qualifying l) eqn:Q; simpl; rewrite ?Q; now rewrite IH.
Qed.

(** ** The normalizer after the parser *)

Lemma digit_first_not_time t :
  first_isdigit t = true -> t <> "time".
Proof. intros H ->. discriminate. Qed.

Lemma is_cpu_row_tokens r first rest :
  r = first :: rest -> Forall token r -> first_isdigit first = true ->
  is_cpu_row r = String.eqb (row_cpu r) "CPU".
Proof.
  intros -> T D. inversion T as [|? ? (_ & S1) T1]; subst.
  unfold is_cpu_row, row_cpu. cbn [nth].
  rewrite (strip_no_space first S1).
  destruct (String.eqb_spec first "time") as [E|_];
    [now apply digit_first_not_time in D|].
  destruct rest as [|c rest]; [reflexivity|].
  inversion T1 as [|? ? (_ & S2) _]; subst. cbn [List.length nth].
  rewrite (strip_no_space c S2). simpl. now rewrite andb_true_r.
Qed.

(** X4. On what the parser wrote, [remove_cpu_rows] is stopped by the reader
    when a token is longer than the field size limit (exit code 1, the file
    as the parser left it), and otherwise it drops exactly the rows whose
    second field is the token 'CPU' as it stands: the tokens carry no
    whitespace to strip and no carriage return to translate, and a first token
    that begins with a digit is never 'time'.  The header stays in front. *)
Theorem normalizer_after_parser lg o :
  (convert_to_csv ;; remove_cpu_rows)%prog {| log_file := lg; csv_file := o |} =
  if fields_fit (parsed lg)
  then (Returned tt,
        {| log_file := lg;
           csv_file :=
             Some (header ::
                   filter (fun r => negb (String.eqb (row_cpu r) "CPU")) (parsed lg)) |})
  else (Exited 1%Z, {| log_file := lg; csv_file := Some (header :: parsed lg) |}).
Proof.
  unfold bind.
  rewrite convert_to_csv_spec, remove_cpu_rows_spec, text_mode_parsed,
    fields_fit_header.
  destruct (fields_fit (parsed lg)); [|reflexivity].
  do 3 f_equal. cbn [filter]. change (negb (is_cpu_row header)) with true.
  cbv iota. f_equal. apply filter_ext_in. intros r Hr.
  destruct (parsed_rows_are_tokens_aux lg r Hr) as (T & first & rest & E & D).
  now rewrite (is_cpu_row_tokens r first rest E T D).
Qed.

(** ** The capture and the whole script *)

Lemma main_spec lg o :
  main {| log_file := lg; csv_file := o |} =
  (match fst (run lg) with
   | 0%Z => Returned tt
   | code => Exited code
   end,
   {| log_file := lg; csv_file := snd (run lg) |}).
Proof.
  rewrite run_spec. unfold main, bind.
  rewrite convert_to_csv_spec, remove_cpu_rows_spec, text_mode_parsed,
    fields_fit_header.
  destruct (fields_fit (parsed lg)) eqn:F; [|reflexivity].
  change (filter (fun r => negb (is_cpu_row r)) (header :: parsed lg))
    with (header :: data_rows lg).
  rewrite sort_cpu_data_spec by apply data_rows_nonblank.
  rewrite (fields_fit_filter _ _ F : fields_fit (data_rows lg) = true).
  destruct (sorted_table (data_rows lg)) as [[|n0 rest]|]; try reflexivity.
  cbv zeta. destruct (long n0) eqn:W; cbn [orb].
  - rewrite (process_file_spec _ _ (wide_header true)) by reflexivity.
    rewrite fields_fit_wide_header.
    now destruct (if fields_fit _ then _ else _).
  - destruct (forallb (fun n => negb (long n)) (n0 :: rest)) eqn:A;
      [|reflexivity].
    rewrite short_prefix_all by assumption.
    change (map (render false) (n0 :: rest)) with (map pad12 (n0 :: rest)).
    change (wide_header false) with header.
    rewrite (process_file_spec _ _ header) by reflexivity.
    rewrite fields_fit_header.
    now destruct (if fields_fit _ then _ else _).
Qed.

Lemma run_exit_code lines : fst (run lines) = 0%Z \/ fst (run lines) = 1%Z.
Proof.
  rewrite run_spec. destruct (fields_fit (parsed lines)); auto.
  destruct (sorted_table (data_rows lines)) as [[|n0 rest]|]; auto.
  cbv zeta. destruct (_ || _)%bool; auto.
  destruct (if fields_fit _ then _ else _); auto.
Qed.

(** X5. When the capture fails - a command is missing, or the return code is
    neither 0 nor 124 - the script ends with exit code 1 before any stage
    runs: the CSV file is left as it was. *)
Theorem capture_failure_stops_script mpstat f :
  mpstat = None \/
  (exists out rc, mpstat = Some (out, rc) /\ rc <> 0%Z /\ rc <> 124%Z) ->
  fst (run_script mpstat f) = 1%Z /\
  csv_file (snd (run_script mpstat f)) = csv_file f.
Proof.
  intros [-> | (out & rc & -> & N0 & N124)].
  - split; reflexivity.
  - unfold run_script, script, measure_cpu_usage, bind, write_log.
    cbn [csv_file log_file].
    apply Z.eqb_neq in N0, N124. rewrite N0, N124. split; reflexivity.
Qed.

Lemma capture_failure_stops_script_witness :
  (Some (["mpstat: error"], 2%Z) = None \/
   exists out rc, Some (["mpstat: error"], 2%Z) = Some (out, rc) /\
                  rc <> 0%Z /\ rc <> 124%Z) /\
  fst (run_script (Some (["mpstat: error"], 2%Z))
                  {| log_file := []; csv_file := Some [["old"]] |}) = 1%Z.
Proof.
  assert (H : Some (["mpstat: error"], 2%Z) = None \/
              exists out rc, Some (["mpstat: error"], 2%Z) = Some (out, rc) /\
                             rc <> 0%Z /\ rc <> 124%Z).
  { right. exists ["mpstat: error"], 2%Z. repeat split; discriminate. }
  split; [exact H|].
  apply (capture_failure_stops_script (Some (["mpstat: error"], 2%Z))
           {| log_file := []; csv_file := Some [["old"]] |} H).
Defined.

(** X6. After a capture that returns 0 or 124 the script is a run on the
    output less its first two lines, whatever these are: the log holds the
    remaining lines, and the exit code and the CSV file are those of [run],
    whatever the files held before. *)
Theorem script_after_capture out rc f :
  rc = 0%Z \/ rc = 124%Z ->
  run_script (Some (out, rc)) f =
  (fst (run (skipn 2 out)),
   {| log_file := skipn 2 out; csv_file := snd (run (skipn 2 out)) |}).
Proof.
  intros H. unfold run_script, script, measure_cpu_usage, bind, write_log, read_log.
  cbn [csv_file log_file].
  assert (E : ((rc =? 0) || (rc =? 124))%Z = true)
    by (destruct H as [-> | ->]; reflexivity).
  rewrite E. rewrite main_spec. cbn [csv_file log_file].
  destruct (run_exit_code (skipn 2 out)) as [C | C]; rewrite C; reflexivity.
Qed.

Lemma script_after_capture_witness :
  (124 = 0 \/ 124 = 124)%Z /\
  fst (run_script (Some ("Linux" :: "" :: spec_example, 124%Z))
                  {| log_file := []; csv_file := None |}) = 0%Z.
Proof.
  split; [now right|].
  rewrite (script_after_capture ("Linux" :: "" :: spec_example) 124%Z
             {| log_file := []; csv_file := None |} (or_intror eq_refl)).
  vm_compute. reflexivity.
Defined.

(** X7. Dropping the first two lines is harmless when they do not qualify,
    as the banner and the blank line of mpstat do not: the exit code and the
    CSV file are then those of a run on the whole output. *)
Theorem dropped_banner_is_harmless out rc f :
  rc = 0%Z \/ rc = 124%Z ->
  Forall (fun l => qualifying l = false) (firstn 2 out) ->
  fst (run_script (Some (out, rc)) f) = fst (run out) /\
  csv_file (snd (run_script (Some (out, rc)) f)) = snd (run out).
Proof.
  intros H B.
  assert (E : run (skipn 2 out) = run out).
  { apply run_parsed. unfold parsed. f_equal.
    rewrite <- (firstn_skipn 2 out) at 2. rewrite filter_app.
    replace (filter qualifying (firstn 2 out)) with (@nil string); [reflexivity|].
    symmetry. induction B as [|l ls Q _ IH]; simpl; auto. now rewrite Q. }
  unfold run_script, script, measure_cpu_usage, bind, write_log, read_log.
  cbn [csv_file log_file].
  assert (R : ((rc =? 0) || (rc =? 124))%Z = true)
    by (destruct H as [-> | ->]; reflexivity).
  rewrite R, main_spec. cbn [csv_file log_file]. rewrite E.
  destruct (run_exit_code out) as [C | C]; rewrite C; split; reflexivity.
Qed.

Lemma dropped_banner_is_harmless_witness :
  (0 = 0 \/ 0 = 124)%Z /\
  Forall (fun l => qualifying l = false) (firstn 2 ("Linux" :: "" :: spec_example)) /\
  fst (run_script (Some ("Linux" :: "" :: spec_example, 0%Z))
                  {| log_file := []; csv_file := None |})
  = fst (run ("Linux" :: "" :: spec_example)).
Proof.
  assert (B : Forall (fun l => qualifying l = false)
                     (firstn 2 ("Linux" :: "" :: spec_example))).
  { repeat constructor. }
  split; [now left|]. split; [exact B|].
  apply (dropped_banner_is_harmless ("Linux" :: "" :: spec_example) 0%Z
           {| log_file := []; csv_file := None |} (or_introl eq_refl) B).
Defined.

(** ** sort_cpu_data *)

Lemma omap_None {A B} (f : A -> option B) l a :
  In a l -> f a = None -> omap f l = None.
Proof.
  induction l as [|b l IH]; simpl; [tauto|].
  intros [->|H] E.
  - now rewrite E.
  - destruct (f b); simpl; auto. now rewrite (IH H E).
Qed.

Lemma omap_Some {A B} (f : A -> option B) l :
  Forall (fun a => f a <> None) l -> exists r, omap f l = Some r.
Proof.
  induction 1 as [|a l Ha _ (r & IH)]; simpl; [now exists []|].
  destruct (f a) as [b|]; [|congruence]. simpl. rewrite IH. simpl.
  now exists (b :: r).
Qed.

Lemma sorted_table_None t n :
  In n t -> is_all n = false -> row_int n = None -> sorted_table t = None.
Proof.
  intros Hn A I. unfold sorted_table, sorted_by.
  rewrite (omap_None _ (filter (fun n => negb (is_all n)) t) n); auto.
  - apply filter_In. now rewrite A.
  - now rewrite I.
Qed.

Lemma sorted_table_Some t :
  Forall cpu_ok t -> exists sn, sorted_table t = Some sn.
Proof.
  intros H. unfold sorted_table, sorted_by.
  destruct (omap_Some (fun x => k <-? row_int x ;; Some (k, x))
              (filter (fun n => negb (is_all n)) t)) as (keyed & E).
  - apply Forall_forall. intros n Hn. apply filter_In in Hn as (Hn & A).
    rewrite Forall_forall in H. destruct (H n Hn) as [B | B].
    + rewrite B in A. discriminate.
    + destruct (row_int n); [discriminate | congruence].
  - rewrite E. simpl. eauto.
Qed.

(** X8. A data row whose CPU field is neither 'all' nor an integer, or that
    has no CPU field, stops [sort_cpu_data] before it opens the file for
    writing: exit code 1, the file untouched. *)
Theorem sort_rejects_bad_cpu lg t n :
  Forall (fun r => r <> []) t ->
  In n t -> is_all n = false -> row_int n = None ->
  sort_cpu_data {| log_file := lg; csv_file := Some (header :: t) |} =
  (Exited 1%Z, {| log_file := lg; csv_file := Some (header :: t) |}).
Proof.
  intros NB Hn A I. rewrite sort_cpu_data_spec by assumption.
  rewrite (sorted_table_None t n Hn A I). now destruct (fields_fit t).
Qed.

Lemma sort_rejects_bad_cpu_witness :
  Forall (fun r : row => r <> []) [["08:00:01"; "x1"]] /\
  sort_cpu_data {| log_file := []; csv_file := Some [header; ["08:00:01"; "x1"]] |} =
  (Exited 1%Z, {| log_file := []; csv_file := Some [header; ["08:00:01"; "x1"]] |}).
Proof.
  assert (NB : Forall (fun r : row => r <> []) [["08:00:01"; "x1"]])
    by (repeat constructor; discriminate).
  split; [exact NB|].
  apply (sort_rejects_bad_cpu [] [["08:00:01"; "x1"]] ["08:00:01"; "x1"] NB);
    [now left | reflexivity | reflexivity].
Defined.

Lemma length_pad12 n : List.length (pad12 n) = 12.
Proof. reflexivity. Qed.

(** X9. What [sort_cpu_data] writes when it returns is rectangular: the
    header row is the twelve column names, with one unnamed column more when
    the first row written had fields beyond the twelfth, and every data row
    has exactly as many fields as the header row. *)
Theorem sort_output_rectangular lg t f1 :
  Forall (fun r => r <> []) t ->
  sort_cpu_data {| log_file := lg; csv_file := Some (header :: t) |} =
    (Returned tt, f1) ->
  exists wide rs,
    csv_file f1 = Some (wide_header wide :: rs) /\
    Forall (fun r => List.length r = List.length (wide_header wide)) rs.
Proof.
  intros NB. rewrite sort_cpu_data_spec by assumption.
  destruct (fields_fit t); [|discriminate].
  destruct (sorted_table t) as [[|n0 rest]|]; try discriminate.
  cbv zeta. destruct (long n0).
  - intros E. injection E as <-. exists true, (map (render true) (n0 :: rest)). split; [reflexivity|].
    apply Forall_forall. intros r Hr. apply in_map_iff in Hr as (n & <- & _).
    unfold render. now rewrite length_app, length_pad12.
  - destruct (forallb _ _); [|discriminate].
    intros E. injection E as <-. exists false, (map pad12 (short_prefix (n0 :: rest))). split; [reflexivity|].
    apply Forall_forall. intros r Hr. apply in_map_iff in Hr as (n & <- & _).
    reflexivity.
Qed.

Lemma sort_output_rectangular_witness :
  Forall (fun r : row => r <> []) [["08:00:01"; "1"]; ["08:00:01"; "all"; "5.0"]] /\
  exists wide rs,
    csv_file {| log_file := [];
                csv_file := Some [header; pad12 ["08:00:01"; "all"; "5.0"];
                                  pad12 ["08:00:01"; "1"]] |}
      = Some (wide_header wide :: rs) /\
    Forall (fun r => List.length r = List.length (wide_header wide)) rs.
Proof.
  assert (NB : Forall (fun r : row => r <> [])
                      [["08:00:01"; "1"]; ["08:00:01"; "all"; "5.0"]])
    by (repeat constructor; discriminate).
  split; [exact NB|].
  apply (sort_output_rectangular [] _ _ NB). vm_compute. reflexivity.
Defined.

Lemma insert_keyed_perm {A} k (x : A) l :
  Permutation ((k, x) :: l) (insert_keyed k x l).
Proof.
  induction l as [|[k1 y] l IH]; simpl; auto.
  destruct (k <=? k1)%Z; auto.
  etransitivity; [apply perm_swap|]. now apply perm_skip.
Qed.

Lemma sort_keyed_perm {A} (l : list (Z * A)) : Permutation l (sort_keyed l).
Proof.
  induction l as [|[k x] l IH]; simpl; auto.
  etransitivity; [apply perm_skip, IH|]. apply insert_keyed_perm.
Qed.

Lemma filter_split_perm {A} (p : A -> bool) l :
  Permutation l (filter p l ++ filter (fun a => negb (p a)) l).
Proof.
  induction l as [|a l IH]; simpl; auto.
  destruct (p a); simpl.
  - now apply perm_skip.
  - etransitivity; [apply perm_skip, IH|]. apply Permutation_middle.
Qed.

Lemma sorted_table_perm t sn : sorted_table t = Some sn -> Permutation t sn.
Proof.
  intros S. destruct (sorted_parts _ _ S) as (keyed & E1 & _ & ->).
  etransitivity; [apply (filter_split_perm is_all)|].
  apply Permutation_app_head. rewrite <- E1.
  apply Permutation_map, sort_keyed_perm.
Qed.

(** X10. When [sort_cpu_data] returns, it has written every data row once:
    the rows of the new file are a rearrangement of the rows read, each
    laid out on the columns of the header. *)
Theorem sort_is_permutation lg t f1 :
  Forall (fun r => r <> []) t ->
  sort_cpu_data {| log_file := lg; csv_file := Some (header :: t) |} =
    (Returned tt, f1) ->
  exists wide rs,
    csv_file f1 = Some (wide_header wide :: rs) /\
    Permutation (map (render wide) t) rs.
Proof.
  intros NB. rewrite sort_cpu_data_spec by assumption.
  destruct (fields_fit t); [|discriminate].
  destruct (sorted_table t) as [[|n0 rest]|] eqn:S; try discriminate.
  apply sorted_table_perm in S.
  cbv zeta. destruct (long n0).
  - intros E. injection E as <-. exists true, (map (render true) (n0 :: rest)). split; [reflexivity|].
    now apply Permutation_map.
  - destruct (forallb _ _) eqn:A; [|discriminate].
    intros E. injection E as <-. exists false, (map pad12 (short_prefix (n0 :: rest))). split; [reflexivity|].
    rewrite short_prefix_all by assumption.
    replace (map pad12 (n0 :: rest)) with (map (render false) (n0 :: rest))
      by (apply map_ext; intros; unfold render; now rewrite app_nil_r).
    now apply Permutation_map.
Qed.

Lemma sort_is_permutation_witness :
  Forall (fun r : row => r <> []) [["08:00:01"; "1"]; ["08:00:01"; "all"; "5.0"]] /\
  exists wide rs,
    csv_file {| log_file := [];
                csv_file := Some [header; pad12 ["08:00:01"; "all"; "5.0"];
                                  pad12 ["08:00:01"; "1"]] |}
      = Some (wide_header wide :: rs) /\
    Permutation (map (render wide) [["08:00:01"; "1"]; ["08:00:01"; "all"; "5.0"]]) rs.
Proof.
  assert (NB : Forall (fun r : row => r <> [])
                      [["08:00:01"; "1"]; ["08:00:01"; "all"; "5.0"]])
    by (repeat constructor; discriminate).
  split; [exact NB|].
  apply (sort_is_permutation [] _ _ NB). vm_compute. reflexivity.
Defined.

Lemma sorted_by_sorted s :
  Forall (fun n => is_all n = false) s ->
  ForallOrdPairs (fun a b => precedes (row_cpu a) (row_cpu b)) s ->
  Forall cpu_ok s ->
  sorted_by row_int s = Some s.
Proof.
  unfold sorted_by. intros NA. induction NA as [|n s A _ IH]; intros O C;
    [reflexivity|].
  inversion O as [|? ? Hn Os]; subst. inversion C as [|? ? Cn Cs]; subst.
  specialize (IH Os Cs). cbn [omap].
  destruct Cn as [B | B]; [congruence|].
  destruct (row_int n) as [k|] eqn:K; [|congruence]. cbn [obind].
  destruct (omap _ s) as [keyed|] eqn:E; [|discriminate]. cbn [obind] in *.
  injection IH as IH. cbn [sort_keyed].
  assert (F : Forall (fun kx => In (snd kx) s /\ row_int (snd kx) = Some (fst kx))
                     (sort_keyed keyed)).
  { apply Forall_forall. intros kx Hk. rewrite In_sort_keyed in Hk.
    apply omap_Forall2 in E. clear - E Hk.
    induction E as [|a b l l1 H _ IHE]; [destruct Hk|].
    destruct (row_int a) as [ka|] eqn:Ka; [|discriminate]. simpl in H.
    injection H as <-. destruct Hk as [<-|Hk]; simpl; auto.
    destruct (IHE Hk). split; auto. }
  destruct (sort_keyed keyed) as [|[k1 y] l] eqn:Sk.
  - simpl in IH. subst s. reflexivity.
  - apply Forall_inv in F. destruct F as (Hy & Ky). simpl in Hy, Ky.
    rewrite Forall_forall in Hn.
    destruct (Hn y Hy) as [All | (_ & a & b & Ia & Ib & Le)].
    + unfold is_all in A. rewrite All in A. discriminate.
    + rewrite (row_int_cpu _ _ K) in Ia. rewrite (row_int_cpu _ _ Ky) in Ib.
      injection Ia as <-. injection Ib as <-.
      cbn [insert_keyed]. apply Z.leb_le in Le. rewrite Le.
      cbn [map snd]. simpl in IH. now rewrite IH.
Qed.

(** A table in the order of the sort is left as it is by the sort. *)
Lemma sorted_table_sorted s :
  ForallOrdPairs (fun a b => precedes (row_cpu a) (row_cpu b)) s ->
  Forall cpu_ok s ->
  sorted_table s = Some s.
Proof.
  induction s as [|n s IH]; intros O C; [reflexivity|].
  inversion O as [|? ? Hn Os]; subst. inversion C as [|? ? Cn Cs]; subst.
  destruct (is_all n) eqn:A.
  - specialize (IH Os Cs). unfold sorted_table in *. cbn [filter]. rewrite A.
    cbn [negb]. destruct (sorted_by row_int _) as [so|]; [|discriminate].
    cbn [obind] in *. injection IH as IH. now rewrite <- app_comm_cons, IH.
  - assert (NA : Forall (fun x => is_all x = false) (n :: s)).
    { constructor; auto. rewrite Forall_forall in *. intros x Hx.
      destruct (Hn x Hx) as [E | (N & _)].
      - unfold is_all in A. rewrite E in A. discriminate.
      - unfold is_all. now apply String.eqb_neq. }
    unfold sorted_table.
    assert (F1 : filter (fun x => negb (is_all x)) (n :: s) = n :: s).
    { clear - NA. induction NA as [|x l Hx _ IHl]; simpl; auto.
      now rewrite Hx, IHl. }
    assert (F2 : filter is_all (n :: s) = []).
    { clear - NA. induction NA as [|x l Hx _ IHl]; simpl; auto.
      now rewrite Hx. }
    rewrite F1, F2, (sorted_by_sorted (n :: s) NA O C). reflexivity.
Qed.

Lemma sorted_table_cpu_ok t sn : sorted_table t = Some sn -> Forall cpu_ok sn.
Proof.
  intros S. apply Forall_forall. intros n Hn.
  apply (sorted_In _ _ S) in Hn.
  destruct (sorted_parts _ _ S) as (keyed & E1 & E2 & _).
  unfold cpu_ok. destruct (is_all n) eqn:A; [now left | right].
  assert (H : In n (map snd keyed)).
  { rewrite E1. apply filter_In. now rewrite A. }
  apply in_map_iff in H as (kx & <- & Hk). rewrite Forall_forall in E2.
  rewrite (E2 kx Hk). discriminate.
Qed.

Lemma cpu_ok_render wide n : cpu_ok n -> cpu_ok (render wide n).
Proof.
  intros [A | I]; [now left|]. right.
  unfold row_int in *. destruct n as [|? [|c n]]; simpl in *; auto.
Qed.

Lemma rendered_sorted wide t sn :
  sorted_table t = Some sn ->
  sorted_table (map (render wide) sn) = Some (map (render wide) sn).
Proof.
  intros S. apply sorted_table_sorted.
  - apply FOP_map_intro. exact (sorted_order _ _ S).
  - apply Forall_forall. intros r Hr. apply in_map_iff in Hr as (n & <- & Hn).
    apply cpu_ok_render. pose proof (sorted_table_cpu_ok _ _ S) as C.
    rewrite Forall_forall in C. now apply C.
Qed.

(** The file with one unnamed column more. *)
Lemma dict_of_row_wide n :
  let d := dict_of_row (wide_header true) n in
  dict_get d (Some "CPU") =
    Some (match nth_error n 1 with Some c => VStr c | None => VNone end)
  /\ (List.length n = 13 ->
      keys d = map Some (wide_header true) /\
      dict_to_list (map Some (wide_header true)) d = Some n).
Proof.
  do 14 (destruct n as [|? n];
         [split; [reflexivity | intros H; try discriminate H;
                                split; reflexivity]|]).
  split; [reflexivity|]. intros H. simpl in H. lia.
Qed.

Lemma dict_writerows_exact sn : forall lg t,
  Forall (fun n => List.length n = 13) sn ->
  dict_writerows (map Some (wide_header true))
                 (map (dict_of_row (wide_header true)) sn)
                 {| log_file := lg; csv_file := Some t |} =
  (Returned tt, {| log_file := lg; csv_file := Some (t ++ sn) |}).
Proof.
  induction sn as [|n sn IH]; intros lg t H.
  - simpl. now rewrite app_nil_r.
  - inversion H as [|? ? Hn Hs]; subst.
    cbn [map dict_writerows]. unfold bind.
    destruct (dict_of_row_wide n) as (_ & W). destruct (W Hn) as (_ & ->).
    unfold attempt, ret, writerow. cbn [csv_file log_file].
    rewrite IH by assumption. now rewrite <- app_assoc.
Qed.

Lemma sort_cpu_data_wide_spec lg t :
  Forall (fun n => List.length n = 13) t ->
  sort_cpu_data {| log_file := lg; csv_file := Some (wide_header true :: t) |} =
  match (if fields_fit t then sorted_table t else None) with
  | None => (Exited 1%Z, {| log_file := lg; csv_file := Some (wide_header true :: t) |})
  | Some [] => (Exited 1%Z, {| log_file := lg; csv_file := Some [] |})
  | Some (n0 :: rest) =>
      (Returned tt,
       {| log_file := lg; csv_file := Some (wide_header true :: n0 :: rest) |})
  end.
Proof.
  intros L.
  assert (NB : Forall (fun r : row => r <> []) t).
  { eapply Forall_impl; [|exact L]. intros [|? ?]; simpl; [lia | discriminate]. }
  unfold sort_cpu_data, bind. rewrite read_csv_spec, fields_fit_wide_header.
  destruct (fields_fit t); [|reflexivity].
  unfold DictReader. rewrite (filter_nonblank t NB).
  rewrite (ofilter_map (dict_of_row (wide_header true)) cpu_is_all is_all).
  2:{ intros a. unfold cpu_is_all. destruct (dict_of_row_wide a) as (-> & _).
      unfold is_all, row_cpu. now destruct a as [|? [|c a]]. }
  cbn [attempt ret].
  rewrite (ofilter_map (dict_of_row (wide_header true)) _ (fun n => negb (is_all n))).
  2:{ intros a. unfold cpu_is_all. destruct (dict_of_row_wide a) as (-> & _).
      unfold is_all, row_cpu. now destruct a as [|? [|c a]]. }
  cbn [attempt ret].
  rewrite (sorted_by_map (dict_of_row (wide_header true)) cpu_int row_int).
  2:{ intros a. unfold cpu_int, row_int. destruct (dict_of_row_wide a) as (-> & _).
      now destruct a as [|? [|c a]]. }
  destruct (sorted_table t) as [sn|] eqn:S; pose proof S as S0;
    unfold sorted_table in S;
    destruct (sorted_by row_int (filter (fun n => negb (is_all n)) t)) as [so|];
    cbn [option_map obind attempt ret sys_exit] in *; try discriminate;
    [|reflexivity].
  injection S as S. rewrite <- map_app, S. unfold open_w. cbn [log_file csv_file].
  assert (L1 : Forall (fun n => List.length n = 13) sn).
  { apply Forall_forall. intros n Hn. rewrite Forall_forall in L. apply L.
    exact (proj1 (sorted_In _ _ S0 n) Hn). }
  destruct sn as [|n0 rest]; cbn [map hd_error attempt ret sys_exit];
    [reflexivity|].
  destruct (dict_of_row_wide n0) as (_ & W).
  destruct (W (Forall_inv L1)) as (-> & _).
  unfold writerow. cbn [csv_file log_file].
  rewrite <- (map_cons (dict_of_row (wide_header true)) n0 rest).
  rewrite dict_writerows_exact by assumption. reflexivity.
Qed.

(** X11. [sort_cpu_data] is idempotent on the file: run again on the file it
    has written, it leaves that file as it is (the rows are in order already,
    and each fills the columns of the header).  The second run returns too,
    unless the reader now refuses a field: the fields beyond the twelfth were
    written as one, the text of a list, which can be longer than the field
    size limit. *)
Theorem sort_cpu_data_idempotent lg t f1 :
  Forall (fun r => r <> []) t ->
  sort_cpu_data {| log_file := lg; csv_file := Some (header :: t) |} =
    (Returned tt, f1) ->
  exists t1,
    csv_file f1 = Some t1 /\
    sort_cpu_data f1 = (if fields_fit t1 then Returned tt else Exited 1%Z, f1).
Proof.
  intros NB. rewrite sort_cpu_data_spec by assumption.
  destruct (fields_fit t); [|discriminate].
  destruct (sorted_table t) as [[|n0 rest]|] eqn:S; try discriminate.
  cbv zeta. destruct (long n0) eqn:W.
  - pose proof (rendered_sorted true _ _ S) as R.
    assert (L : Forall (fun r => List.length r = 13)
                       (map (render true) (n0 :: rest))).
    { apply Forall_forall. intros r Hr. apply in_map_iff in Hr as (n & <- & _).
      unfold render. now rewrite length_app, length_pad12. }
    remember (map (render true) (n0 :: rest)) as s1 eqn:E1.
    intros E. injection E as <-. eexists. split; [reflexivity|].
    rewrite sort_cpu_data_wide_spec by assumption.
    rewrite fields_fit_wide_header.
    destruct (fields_fit s1); [|reflexivity]. rewrite R.
    destruct s1; [discriminate | reflexivity].
  - destruct (forallb _ _) eqn:A; [|discriminate].
    rewrite short_prefix_all by assumption.
    change (map pad12 (n0 :: rest)) with (map (render false) (n0 :: rest)).
    pose proof (rendered_sorted false _ _ S) as R.
    assert (F : forallb (fun n => negb (long n))
                        (map (render false) (n0 :: rest)) = true).
    { apply forallb_forall. intros r Hr.
      apply in_map_iff in Hr as (n & <- & _). reflexivity. }
    assert (P : map pad12 (map (render false) (n0 :: rest)) =
                map (render false) (n0 :: rest)).
    { rewrite map_map. apply map_ext. intros n. reflexivity. }
    assert (NB1 : Forall (fun r : row => r <> [])
                         (map (render false) (n0 :: rest))).
    { apply Forall_forall. intros r Hr.
      apply in_map_iff in Hr as (n & <- & _). discriminate. }
    assert (H0 : exists r0 rs, map (render false) (n0 :: rest) = r0 :: rs /\
                               long r0 = false).
    { exists (render false n0), (map (render false) rest). now split. }
    remember (map (render false) (n0 :: rest)) as s1 eqn:E1.
    intros E. injection E as <-. eexists. split; [reflexivity|].
    rewrite sort_cpu_data_spec by assumption. rewrite fields_fit_header.
    destruct (fields_fit s1); [|reflexivity]. rewrite R.
    destruct H0 as (r0 & rs & -> & W0). cbv zeta. rewrite W0, F.
    now rewrite (short_prefix_all _ F), P.
Qed.

Lemma sort_cpu_data_idempotent_witness :
  Forall (fun r : row => r <> []) [["08:00:01"; "1"]; ["08:00:01"; "all"; "5.0"]] /\
  exists t1,
    csv_file {| log_file := [];
                csv_file := Some [header; pad12 ["08:00:01"; "all"; "5.0"];
                                  pad12 ["08:00:01"; "1"]] |} = Some t1 /\
    sort_cpu_data {| log_file := [];
                     csv_file := Some [header; pad12 ["08:00:01"; "all"; "5.0"];
                                       pad12 ["08:00:01"; "1"]] |} =
    (if fields_fit t1 then Returned tt else Exited 1%Z,
     {| log_file := [];
        csv_file := Some [header; pad12 ["08:00:01"; "all"; "5.0"];
                          pad12 ["08:00:01"; "1"]] |}).
Proof.
  assert (NB : Forall (fun r : row => r <> [])
                      [["08:00:01"; "1"]; ["08:00:01"; "all"; "5.0"]])
    by (repeat constructor; discriminate).
  split; [exact NB|].
  apply (sort_cpu_data_idempotent []
           [["08:00:01"; "1"]; ["08:00:01"; "all"; "5.0"]]
           {| log_file := [];
              csv_file := Some [header; pad12 ["08:00:01"; "all"; "5.0"];
                                pad12 ["08:00:01"; "1"]] |} NB).
  vm_compute. reflexivity.
Defined.

(** X12. When the reader accepts the file, the first row in sorted order
    has at most twelve fields and a later one has more, [sort_cpu_data] fails
    after it has started writing: exit code 1, and the file holds the header
    and only the rows that sort before the first row with more than twelve
    fields. *)
Theorem sort_stops_at_first_long_row lg t n0 rest :
  Forall (fun r => r <> []) t ->
  fields_fit t = true ->
  sorted_table t = Some (n0 :: rest) ->
  long n0 = false ->
  existsb long rest = true ->
  sort_cpu_data {| log_file := lg; csv_file := Some (header :: t) |} =
  (Exited 1%Z,
   {| log_file := lg;
      csv_file := Some (header :: map pad12 (short_prefix (n0 :: rest))) |}) /\
  List.length (short_prefix (n0 :: rest)) < List.length t.
Proof.
  intros NB Fit S W X. rewrite sort_cpu_data_spec by assumption. rewrite Fit, S.
  cbv zeta. rewrite W.
  assert (A : forallb (fun n => negb (long n)) (n0 :: rest) = false).
  { cbn [forallb]. rewrite W. cbn [negb andb].
    clear - X. induction rest as [|n rest IH]; simpl in *; [discriminate|].
    destruct (long n); simpl in *; auto. }
  rewrite A. split; [reflexivity|].
  pose proof (sorted_length _ _ S) as SL.
  assert (P : List.length (short_prefix (n0 :: rest)) < List.length (n0 :: rest)).
  { clear - A. induction (n0 :: rest) as [|n l IH]; simpl in *; [discriminate|].
    destruct (long n); simpl in *; [lia|]. specialize (IH A). lia. }
  unfold row in *. lia.
Qed.

Lemma sort_stops_at_first_long_row_witness :
  sort_cpu_data
    {| log_file := [];
       csv_file := Some [header; ["08:00:01"; "0"; "a"];
                         ["08:00:01"; "1"; "1"; "2"; "3"; "4"; "5"; "6"; "7";
                          "8"; "9"; "10"; "11"]] |} =
  (Exited 1%Z,
   {| log_file := [];
      csv_file := Some [header; pad12 ["08:00:01"; "0"; "a"]] |}).
Proof.
  apply (sort_stops_at_first_long_row []
           [["08:00:01"; "0"; "a"];
            ["08:00:01"; "1"; "1"; "2"; "3"; "4"; "5"; "6"; "7"; "8"; "9";
             "10"; "11"]]
           ["08:00:01"; "0"; "a"]
           [["08:00:01"; "1"; "1"; "2"; "3"; "4"; "5"; "6"; "7"; "8"; "9";
             "10"; "11"]]);
    try reflexivity.
  repeat constructor; discriminate.
Defined.

(** ** process_file *)

Lemma group_row_total g ts c rest t :
  Py.strptime ts = Some t -> exists g1, group_row g (ts :: c :: rest) = Some g1.
Proof.
  intros T. unfold group_row. cbn [nth_error obind]. rewrite T. cbn [obind].
  destruct (lookup g c) as [b|] eqn:L.
  - rewrite L. cbn [obind set_first]. eauto.
  - rewrite lookup_app, L, String.eqb_refl. cbn [obind set_first]. eauto.
Qed.

Lemma group_loop_total data : forall g,
  Forall (fun r => 2 <= List.length r /\ time_ok r) data ->
  exists g1, group_loop data g = Some g1.
Proof.
  induction data as [|r data IH]; intros g H; simpl; [eauto|].
  inversion H as [|? ? (L & T) Hd]; subst.
  destruct r as [|ts [|c rest]]; simpl in L; try lia.
  unfold time_ok, row_time in T. cbn [nth] in T.
  destruct (Py.strptime ts) as [t|] eqn:E; [|congruence].
  destruct (group_row_total g ts c rest t E) as (g1 & ->). simpl.
  now apply IH.
Qed.

Lemma group_loop_rows_ok data : forall g g1,
  group_loop data g = Some g1 ->
  Forall (fun r => 2 <= List.length r /\ time_ok r) data.
Proof.
  induction data as [|r data IH]; intros g g1 H; [constructor|].
  simpl in H. destruct (group_row g r) as [g2|] eqn:E; [|discriminate].
  simpl in H. constructor; [|eapply IH; eauto].
  apply group_row_spec in E as (ts & c & rest & t & -> & T & _).
  split; [simpl; lia|]. unfold time_ok, row_time. cbn [nth]. congruence.
Qed.

(** X13. [process_file] returns exactly when the reader accepts the file,
    the header row is not empty and every data row has at least two fields,
    the first of them a time of the form H:M:S. *)
Theorem process_file_returns_iff lg h t :
  (exists f1, process_file {| log_file := lg; csv_file := Some (h :: t) |} =
              (Returned tt, f1)) <->
  h <> [] /\ fields_fit (h :: t) = true /\
  Forall (fun r => 2 <= List.length r /\ time_ok r) t.
Proof.
  split.
  - intros (f1 & H). destruct h as [|h0 hs].
    + rewrite process_file_no_header in H. discriminate H.
    + rewrite (process_file_spec _ _ ("time" :: hs)) in H by reflexivity.
      split; [discriminate|].
      destruct (fields_fit _); [|discriminate H].
      split; [reflexivity|].
      destruct (group_loop t []) as [g|] eqn:G; [|discriminate].
      eapply group_loop_rows_ok; eauto.
  - intros (N & Fit & F). destruct h as [|h0 hs]; [congruence|].
    rewrite (process_file_spec _ _ ("time" :: hs)) by reflexivity.
    rewrite Fit.
    destruct (group_loop_total t [] F) as (g & ->). eauto.
Qed.

(** X14. [process_file] writes only when it succeeds: whenever it leaves
    through [sys.exit] the exit code is 1 and the files are as they were. *)
Theorem process_file_failure_leaves_files f code f1 :
  process_file f = (Exited code, f1) -> code = 1%Z /\ f1 = f.
Proof.
  destruct f as [lg [[|h t]|]]; try (intros E; injection E as <- <-; now split).
  destruct h as [|h0 hs].
  { rewrite process_file_no_header. intros E; injection E as <- <-; now split. }
  rewrite (process_file_spec _ _ ("time" :: hs)) by reflexivity.
  destruct (if fields_fit _ then _ else _); [discriminate|].
  intros E; injection E as <- <-; now split.
Qed.

Lemma process_file_failure_leaves_files_witness :
  process_file {| log_file := []; csv_file := Some [header; ["0"; "all"]] |} =
    (Exited 1%Z, {| log_file := []; csv_file := Some [header; ["0"; "all"]] |}) /\
  1%Z = 1%Z.
Proof.
  split; [vm_compute; reflexivity|].
  apply (process_file_failure_leaves_files
           {| log_file := []; csv_file := Some [header; ["0"; "all"]] |} 1%Z
           {| log_file := []; csv_file := Some [header; ["0"; "all"]] |}).
  vm_compute. reflexivity.
Defined.

(** X15. [process_file] cannot be run twice: on the file it has written, if
    that has a data row, it fails (exit code 1, file untouched), because the
    first row now carries the elapsed time 0, which is not a time of day. *)
Theorem process_file_twice_fails lg h t f1 :
  t <> [] ->
  process_file {| log_file := lg; csv_file := Some (h :: t) |} = (Returned tt, f1) ->
  process_file f1 = (Exited 1%Z, f1).
Proof.
  intros NE H. destruct h as [|h0 hs].
  { rewrite process_file_no_header in H. discriminate H. }
  rewrite (process_file_spec _ _ ("time" :: hs)) in H by reflexivity.
  destruct (fields_fit _); [|discriminate H].
  destruct (group_loop t []) as [g|] eqn:G; [|discriminate].
  injection H as <-.
  rewrite (process_file_spec _ _ ("time" :: hs)) by reflexivity.
  destruct (fields_fit _); [|reflexivity].
  destruct (out g) as [|r rs] eqn:O.
  - pose proof (loop_length _ _ G) as L. rewrite O in L.
    destruct t; [congruence | discriminate].
  - assert (Z0 : exists rest, r = "0" :: rest).
    { assert (Hd : hd_error (series_of (row_cpu r) (out g)) = Some r).
      { rewrite O. simpl. now rewrite String.eqb_refl. }
      destruct (loop_series _ _ G (row_cpu r))
        as [(_ & E) | (r0 & start & H0 & St & F2)].
      - rewrite E in Hd. discriminate.
      - destruct F2 as [|p r1 ps rs1 (t1 & T1 & E1) _]; [discriminate|].
        simpl in H0, Hd. injection H0 as ->. injection Hd as ->.
        rewrite St in T1. injection T1 as <-. rewrite Z.sub_diag in E1.
        eauto. }
    destruct Z0 as (rest & ->).
    cbn [group_loop]. unfold group_row. destruct rest; reflexivity.
Qed.

Lemma process_file_twice_fails_witness :
  [["08:00:01"; "all"]] <> [] /\
  process_file {| log_file := []; csv_file := Some [header; ["0"; "all"]] |} =
    (Exited 1%Z, {| log_file := []; csv_file := Some [header; ["0"; "all"]] |}).
Proof.
  split; [discriminate|].
  apply (process_file_twice_fails [] header [["08:00:01"; "all"]]);
    [discriminate | vm_compute; reflexivity].
Defined.

Lemma out_update_perm g c b x :
  lookup g c = Some b ->
  Permutation (x :: out g)
              (out (update g c {| start_time := start_time b;
                                  rows := rows b ++ [x] |})).
Proof.
  unfold out. induction g as [|[c0 b0] g IH]; simpl; [discriminate|].
  destruct (String.eqb c0 c).
  - intros E. injection E as ->. simpl. rewrite <- app_assoc. simpl.
    apply Permutation_middle.
  - intros E. simpl. etransitivity; [apply Permutation_middle|].
    apply Permutation_app_head. now apply IH.
Qed.

Lemma group_loop_perm data : forall g g1,
  group_loop data g = Some g1 ->
  Permutation (map (@tl string) (out g) ++ map (@tl string) data)
              (map (@tl string) (out g1)).
Proof.
  induction data as [|r data IH]; intros g g1 H; simpl in H.
  - injection H as <-. now rewrite app_nil_r.
  - destruct (group_row g r) as [g2|] eqn:E; [|discriminate]. simpl in H.
    etransitivity; [|exact (IH g2 g1 H)]. simpl.
    etransitivity; [symmetry; apply Permutation_middle|].
    rewrite app_comm_cons. apply Permutation_app_tail.
    apply group_row_spec in E
      as (ts & c & rest & t & -> & T & [(b & L & ->) | (L & ->)]).
    + change (tl (ts :: c :: rest))
        with (tl (Py.str_of_int (t - start_time b) :: c :: rest)).
      rewrite <- (map_cons (@tl string)). apply Permutation_map.
      now apply out_update_perm.
    + rewrite out_app, map_app. simpl. apply Permutation_cons_append.
Qed.

(** X16. When [process_file] returns it has written every data row once,
    and of each row only the first field is changed: apart from the first
    field, the rows written are a rearrangement of the rows read. *)
Theorem process_file_keeps_rows lg h t f1 :
  process_file {| log_file := lg; csv_file := Some (h :: t) |} = (Returned tt, f1) ->
  exists h1 rs, csv_file f1 = Some (h1 :: rs) /\
                Permutation (map (@tl string) t) (map (@tl string) rs).
Proof.
  intros H. destruct h as [|h0 hs].
  { rewrite process_file_no_header in H. discriminate H. }
  rewrite (process_file_spec _ _ ("time" :: hs)) in H by reflexivity.
  destruct (fields_fit _); [|discriminate H].
  destruct (group_loop t []) as [g|] eqn:G; [|discriminate].
  injection H as <-. exists ("time" :: hs), (out g). split; [reflexivity|].
  exact (group_loop_perm t [] g G).
Qed.

Lemma process_file_keeps_rows_witness :
  exists h1 rs,
    csv_file {| log_file := [];
                csv_file := Some [header; ["0"; "1"; "a"]; ["1"; "1"; "c"];
                                  ["0"; "0"; "b"]] |} = Some (h1 :: rs) /\
    Permutation (map (@tl string) [["08:00:01"; "1"; "a"]; ["08:00:01"; "0"; "b"];
                                   ["08:00:02"; "1"; "c"]])
                (map (@tl string) rs).
Proof.
  apply (process_file_keeps_rows [] header
           [["08:00:01"; "1"; "a"]; ["08:00:01"; "0"; "b"]; ["08:00:02"; "1"; "c"]]).
  vm_compute. reflexivity.
Defined.

(** ** Times *)

(** X17. A time that [strptime] accepts is a number of seconds of one day,
    and so every time field [process_file] writes is the decimal of an integer
    between -86399 and 86399, which [int] reads back. *)
Theorem elapsed_times_are_bounded_ints lg h t f1 :
  process_file {| log_file := lg; csv_file := Some (h :: t) |} = (Returned tt, f1) ->
  exists h1 rs,
    csv_file f1 = Some (h1 :: rs) /\
    Forall (fun r => exists z, Py.int (row_time r) = Some z /\
                               (-86399 <= z <= 86399)%Z) rs.
Proof.
  intros H. destruct h as [|h0 hs].
  { rewrite process_file_no_header in H. discriminate H. }
  rewrite (process_file_spec _ _ ("time" :: hs)) in H by reflexivity.
  destruct (fields_fit _); [|discriminate H].
  destruct (group_loop t []) as [g|] eqn:G; [|discriminate].
  injection H as <-. exists ("time" :: hs), (out g). split; [reflexivity|].
  apply Forall_forall. intros r Hr.
  assert (Hs : In r (series_of (row_cpu r) (out g))) by now apply series_of_In.
  destruct (loop_series _ _ G (row_cpu r))
    as [(_ & E) | (r0 & start & _ & St & F2)].
  - now rewrite E in Hs.
  - destruct (Forall2_In_r _ _ _ _ F2 Hs) as (p & _ & (t1 & T1 & ->)).
    exists (t1 - start)%Z. unfold row_time. cbn [nth].
    apply strptime_range in St, T1.
    split; [apply int_str_of_int|]; lia.
Qed.

Lemma elapsed_times_are_bounded_ints_witness :
  exists h1 rs,
    csv_file {| log_file := [];
                csv_file := Some [header; ["0"; "all"]; ["-86399"; "all"]] |}
      = Some (h1 :: rs) /\
    Forall (fun r => exists z, Py.int (row_time r) = Some z /\
                               (-86399 <= z <= 86399)%Z) rs.
Proof.
  apply (elapsed_times_are_bounded_ints [] header
           [["23:59:59"; "all"]; ["00:00:00"; "all"]]).
  vm_compute. reflexivity.
Defined.

(** ** When a run succeeds *)

Lemma time_ok_render wide n : time_ok (render wide n) <-> time_ok n.
Proof. reflexivity. Qed.

(** X18. A well-formed log makes the run succeed: when no token of a
    qualifying line is longer than the field size limit, at least one row
    survives the normalizer and every surviving row has at most twelve
    tokens, a CPU field that is 'all' or an integer and a time of the form
    H:M:S, the process ends with exit code 0 and a table under the
    twelve-column header. *)
Theorem run_succeeds_on_well_formed lines :
  fields_fit (parsed lines) = true ->
  data_rows lines <> [] ->
  Forall (fun n => cpu_ok n /\ time_ok n /\ long n = false) (data_rows lines) ->
  exists t, run lines = (0%Z, Some (header :: t)).
Proof.
  intros Fit NE W. rewrite run_spec, Fit.
  destruct (sorted_table_Some (data_rows lines)) as (sn & S).
  { eapply Forall_impl; [|exact W]. now intros n (C & _). }
  rewrite S. pose proof (sorted_length _ _ S) as L.
  destruct sn as [|n0 rest].
  { destruct (data_rows lines); [congruence | discriminate]. }
  cbv zeta.
  assert (Sh : forall n, In n (n0 :: rest) -> long n = false /\ time_ok n).
  { intros n Hn. apply (sorted_In _ _ S) in Hn.
    rewrite Forall_forall in W. destruct (W n Hn) as (_ & T & Lg). auto. }
  assert (A : forallb (fun n => negb (long n)) (n0 :: rest) = true).
  { apply forallb_forall. intros n Hn. destruct (Sh n Hn) as (-> & _).
    reflexivity. }
  rewrite A, orb_true_r.
  destruct (Sh n0 (or_introl eq_refl)) as (-> & _).
  assert (Fs : fields_fit (map (render false) (n0 :: rest)) = true).
  { rewrite render_false. apply fields_fit_pad12.
    apply (fields_fit_incl (data_rows lines)).
    - intros r Hr. exact (proj1 (sorted_In _ _ S r) Hr).
    - now apply fields_fit_filter. }
  rewrite Fs.
  destruct (group_loop_total (map (render false) (n0 :: rest)) []) as (g & ->).
  - apply Forall_forall. intros r Hr. apply in_map_iff in Hr as (n & <- & Hn).
    split; [simpl; lia|]. apply time_ok_render. now apply Sh.
  - now exists (out g).
Qed.

Lemma run_succeeds_on_well_formed_witness :
  fields_fit (parsed spec_example) = true /\
  data_rows spec_example <> [] /\
  exists t, run spec_example = (0%Z, Some (header :: t)).
Proof.
  assert (NE : data_rows spec_example <> []) by (vm_compute; discriminate).
  split; [reflexivity|]. split; [exact NE|].
  apply (run_succeeds_on_well_formed spec_example eq_refl NE).
  vm_compute. repeat constructor; try discriminate; now left.
Defined.

Lemma sorted_table_cpu_ok_in t sn : sorted_table t = Some sn -> Forall cpu_ok t.
Proof.
  intros S. pose proof (sorted_table_cpu_ok _ _ S) as C.
  rewrite Forall_forall in *. intros n Hn. apply C.
  exact (proj2 (sorted_In _ _ S n) Hn).
Qed.

(** X19. A run that ends with exit code 0 had at least one row that
    survived the normalizer, and every surviving row has a CPU field that is
    'all' or an integer and a time of the form H:M:S: otherwise a stage
    exits. *)
Theorem run_success_requires lines f :
  run lines = (0%Z, f) ->
  data_rows lines <> [] /\
  Forall (fun n => cpu_ok n /\ time_ok n) (data_rows lines).
Proof.
  rewrite run_spec. destruct (fields_fit (parsed lines)); [|discriminate].
  destruct (sorted_table (data_rows lines)) as [[|n0 rest]|] eqn:S;
    try discriminate.
  cbv zeta. destruct (_ || _)%bool; [|discriminate].
  destruct (fields_fit (map _ _)); [|discriminate].
  destruct (group_loop _ _) as [g|] eqn:G; [|discriminate]. intros _.
  pose proof (sorted_length _ _ S) as L. split.
  - intros E. rewrite E in L. discriminate.
  - pose proof (sorted_table_cpu_ok_in _ _ S) as C.
    apply group_loop_rows_ok in G.
    rewrite Forall_forall in *. intros n Hn. split; [now apply C|].
    apply (proj1 (time_ok_render (long n0) n)).
    apply (G (render (long n0) n)). apply in_map.
    exact (proj2 (sorted_In _ _ S n) Hn).
Qed.

Lemma run_success_requires_witness :
  run spec_example = (0%Z, Some (header :: spec_rows)) /\
  data_rows spec_example <> [].
Proof.
  split; [vm_compute; reflexivity|].
  apply (run_success_requires spec_example (Some (header :: spec_rows))).
  vm_compute. reflexivity.
Defined.

(** X20. The table a run emits is rectangular: its header is the twelve
    column names, 'time' first, with one unnamed column more when the first
    sorted row had tokens beyond the twelfth, and every data row has as many
    fields as the header. *)
Theorem final_table_rectangular lines h f :
  run lines = (0%Z, Some (h :: f)) ->
  (exists wide, h = wide_header wide) /\
  Forall (fun r => List.length r = List.length h) f.
Proof.
  intros H. apply run_success in H as (sn & wide & g & S & G & E).
  injection E as -> ->. split; [now exists wide|].
  apply Forall_forall. intros r Hr.
  apply (loop_origin _ _ G) in Hr as (p & start & Hp & (t & _ & ->)).
  apply in_map_iff in Hp as (n & <- & _).
  destruct wide; reflexivity.
Qed.

Lemma final_table_rectangular_witness :
  run spec_example = (0%Z, Some (header :: spec_rows)) /\
  Forall (fun r => List.length r = List.length header) spec_rows.
Proof.
  split; [vm_compute; reflexivity|].
  apply (final_table_rectangular spec_example header spec_rows).
  vm_compute. reflexivity.
Defined.

(** ** pic.py: reading the emitted table *)

Section PicFacts.
Context {flt_t : Type} (flt : string -> option flt_t).

Lemma pic_row_spec times cd r st1 :
  pic_row flt (times, cd) r = Some st1 ->
  exists f0 cpu f2 rest time usr,
    r = f0 :: cpu :: f2 :: rest /\ Py.int f0 = Some time /\ flt f2 = Some usr /\
    st1 = (if new_time times time then times ++ [time] else times,
           dd_append cd cpu usr).
Proof.
  unfold pic_row. destruct r as [|f0 [|cpu [|f2 rest]]]; cbn [nth_error obind];
    try discriminate.
  - destruct (Py.int f0); discriminate.
  - destruct (Py.int f0); discriminate.
  - destruct (Py.int f0) as [time|] eqn:I; [|discriminate]. cbn [obind].
    destruct (flt f2) as [usr|] eqn:F; [|discriminate]. cbn [obind].
    intros E. injection E as <-. now exists f0, cpu, f2, rest, time, usr.
Qed.

Lemma Sorted_snoc {A} (R : A -> A -> Prop) l x d :
  Sorted R l -> (l = [] \/ R (last l d) x) -> Sorted R (l ++ [x]).
Proof.
  induction 1 as [|a l S IH H]; intros L; simpl.
  - repeat constructor.
  - constructor.
    + apply IH. destruct l as [|b l]; [now left | right].
      destruct L as [L | L]; [discriminate | exact L].
    + destruct l as [|b l]; simpl.
      * constructor. destruct L as [L | L]; [discriminate | exact L].
      * constructor. now inversion H.
Qed.

Lemma pic_loop_times rs : forall times cd times1 cd1,
  Sorted (fun a b : Z => a <> b) times ->
  pic_loop flt rs (times, cd) = Some (times1, cd1) ->
  Sorted (fun a b : Z => a <> b) times1.
Proof.
  induction rs as [|r rs IH]; intros times cd times1 cd1 S H;
    cbn [pic_loop] in H.
  - now injection H as <- <-.
  - destruct (pic_row flt (times, cd) r) as [[times2 cd2]|] eqn:E;
      cbn [obind] in H; [|discriminate].
    apply pic_row_spec in E
      as (f0 & cpu & f2 & rest & time & usr & _ & _ & _ & E).
    injection E as -> ->. eapply IH; [|exact H].
    unfold new_time. destruct times as [|t0 ts]; [repeat constructor|].
    destruct (last (t0 :: ts) 0 =? time)%Z eqn:L; simpl negb; cbv iota; auto.
    apply Sorted_snoc with (d := 0%Z); auto. right. now apply Z.eqb_neq.
Qed.

(** X21. The list [times] that [generate_cpu_usage_graph] builds never holds
    the same value twice in a row: a time is appended only when it differs
    from the last one. *)
Theorem times_never_repeat t times cd :
  read_usage flt t = Some (times, cd) ->
  Sorted (fun a b : Z => a <> b) times.
Proof.
  unfold read_usage, csv_reader.
  destruct (fields_fit t); cbn [obind]; [|discriminate].
  destruct t as [|h rs]; [discriminate|].
  apply pic_loop_times. constructor.
Qed.

Lemma dd_append_lookup (cd : list (string * list flt_t)) cpu (usr : flt_t) c :
  NoDup (map fst cd) ->
  NoDup (map fst (dd_append cd cpu usr)) /\
  (forall us : list flt_t, In (c, us) (dd_append cd cpu usr) ->
     (c = cpu /\ ((exists us0, In (c, us0) cd /\ us = us0 ++ [usr]) \/
                  (~ In c (map fst cd) /\ us = [usr]))) \/
     (c <> cpu /\ In (c, us) cd)).
Proof.
  induction cd as [|[c0 l0] cd IH]; intros ND; simpl.
  - split; [repeat constructor; simpl; tauto|].
    intros us [E|[]]. injection E as <- <-. left. split; auto.
  - inversion ND as [|? ? Hc ND1]; subst. destruct (IH ND1) as (IH1 & IH2).
    assert (K : forall x, In x (map fst (dd_append cd cpu usr)) ->
                          x = cpu \/ In x (map fst cd)).
    { clear. induction cd as [|[c1 l1] cd IHc]; simpl.
      - intros x [<-|[]]; auto.
      - destruct (String.eqb c1 cpu); simpl; intros x [<-|H]; auto.
        destruct (IHc x H); auto. }
    destruct (String.eqb_spec c0 cpu) as [->|N]; simpl.
    + split; [now constructor|].
      intros us [E|H].
      * injection E as <- <-. left. split; auto. left. exists l0. auto.
      * right. split; auto. intros ->. apply Hc.
        change cpu with (fst (cpu, us)). now apply in_map.
    + split.
      * constructor; auto. intros H. destruct (K _ H); congruence.
      * intros us [E|H].
        -- injection E as <- <-. right. auto.
        -- destruct (IH2 us H) as [(-> & [(us0 & H0 & ->) | (H0 & ->)]) | (N1 & H1)].
           ++ left. split; auto. left. exists us0. auto.
           ++ left. split; auto. right. split; auto. simpl. intros [?|?]; auto.
           ++ right. auto.
Qed.

Lemma pic_loop_usage rs : forall done times cd times1 cd1,
  NoDup (map fst cd) ->
  (forall c us, In (c, us) cd ->
     us <> [] /\
     Forall2 (fun r u => flt (nth 2 r EmptyString) = Some u) (series_of c done) us) ->
  (forall c, ~ In c (map fst cd) -> series_of c done = []) ->
  pic_loop flt rs (times, cd) = Some (times1, cd1) ->
  NoDup (map fst cd1) /\
  forall c us, In (c, us) cd1 ->
    us <> [] /\
    Forall2 (fun r u => flt (nth 2 r EmptyString) = Some u)
            (series_of c (done ++ rs)) us.
Proof.
  induction rs as [|r rs IH]; intros done times cd times1 cd1 ND B A H;
    cbn [pic_loop] in H.
  - injection H as <- <-. rewrite app_nil_r. auto.
  - destruct (pic_row flt (times, cd) r) as [[times2 cd2]|] eqn:E;
      cbn [obind] in H; [|discriminate].
    apply pic_row_spec in E
      as (f0 & cpu & f2 & rest & time & usr & -> & _ & F & E).
    injection E as -> ->.
    assert (G : NoDup (map fst cd1) /\
                forall c (us : list flt_t), In (c, us) cd1 ->
                  us <> [] /\
                  Forall2 (fun r u => flt (nth 2 r EmptyString) = Some u)
                          (series_of c ((done ++ [f0 :: cpu :: f2 :: rest]) ++ rs)) us);
      [|rewrite <- app_assoc in G; exact G].
    eapply IH; [| | |exact H].
    + now apply (dd_append_lookup cd cpu usr cpu).
    + intros c us Hc. rewrite series_of_snoc.
      destruct (dd_append_lookup cd cpu usr c ND) as (_ & L).
      destruct (L us Hc) as [(-> & [(us0 & H0 & ->) | (H0 & ->)]) | (N1 & H1)].
      * rewrite String.eqb_refl. destruct (B cpu us0 H0) as (_ & F2).
        split; [now destruct us0|].
        apply Forall2_app; auto.
      * rewrite String.eqb_refl, (A cpu H0). split; [discriminate|].
        repeat constructor. exact F.
      * destruct (String.eqb_spec cpu c); [congruence|].
        rewrite app_nil_r. now apply B.
    + intros c Hc. rewrite series_of_snoc.
      destruct (String.eqb_spec cpu c) as [->|N].
      * exfalso. apply Hc. clear. induction cd as [|[c1 l1] cd IHc]; simpl; auto.
        destruct (String.eqb_spec c1 c) as [->|]; simpl; auto.
      * rewrite app_nil_r. apply A. intros Hin. apply Hc.
        clear - Hin. induction cd as [|[c1 l1] cd IHc]; simpl in *; [tauto|].
        destruct (String.eqb c1 cpu); simpl; destruct Hin; auto.
Qed.

(** X22. [cpu_data] has at most one entry per CPU field, none of them empty,
    and the list kept for a CPU holds one value for each row of that series,
    in the order of the rows: the [float] of the row's third field. *)
Theorem usage_follows_series h rs times cd :
  read_usage flt (h :: rs) = Some (times, cd) ->
  NoDup (map fst cd) /\
  forall c us, In (c, us) cd ->
    us <> [] /\
    Forall2 (fun r u => flt (nth 2 r EmptyString) = Some u) (series_of c rs) us.
Proof.
  unfold read_usage, csv_reader.
  destruct (fields_fit (h :: rs)); cbn [obind]; [|discriminate]. intros H.
  apply (pic_loop_usage rs [] [] [] times cd); auto.
  - constructor.
  - intros c us [].
Qed.

Lemma pic_loop_total rs : forall st,
  Forall (fun r => 3 <= List.length r /\ Py.int (row_time r) <> None /\
                   flt (nth 2 r EmptyString) <> None) rs ->
  exists st1, pic_loop flt rs st = Some st1.
Proof.
  induction rs as [|r rs IH]; intros st H; simpl; [eauto|].
  inversion H as [|? ? (L & I & F) Hr]; subst.
  destruct r as [|f0 [|cpu [|f2 rest]]]; simpl in L; try lia.
  unfold row_time in I. cbn [nth] in I, F.
  destruct st as [times cd]. unfold pic_row. cbn [nth_error obind].
  destruct (Py.int f0); [|congruence]. cbn [obind].
  destruct (flt f2); [|congruence]. cbn [obind]. now apply IH.
Qed.

(** X23. The chart script can read any table a run of pmpstat.py emits,
    provided [float] accepts the third field of every data row: no field is
    too long for the reader, each row has its three fields, and its time
    field is always an integer for [int]. *)
Theorem chart_reads_emitted_table lines t :
  run lines = (0%Z, Some t) ->
  Forall (fun r => flt (nth 2 r EmptyString) <> None) (tl t) ->
  exists times cd, read_usage flt t = Some (times, cd).
Proof.
  intros H F. apply run_success_fit in H as (sn & wide & g & S & Fit & G & ->).
  cbn [tl] in F.
  assert (O : forall r, In r (out g) ->
                exists p t1 start, In p (map (render wide) sn) /\
                  (0 <= t1 <= 86399)%Z /\ (0 <= start <= 86399)%Z /\
                  r = Py.str_of_int (t1 - start) :: tl p).
  { intros r Hr.
    assert (Hs : In r (series_of (row_cpu r) (out g))) by now apply series_of_In.
    destruct (loop_series _ _ G (row_cpu r))
      as [(_ & E) | (r0 & start & _ & St & F2)].
    - now rewrite E in Hs.
    - destruct (Forall2_In_r _ _ _ _ F2 Hs) as (p & Hp & (t1 & T1 & ->)).
      apply series_of_In in Hp as (Hp & _).
      apply strptime_range in St, T1. now exists p, t1, start. }
  assert (Fo : fields_fit (wide_header wide :: out g) = true).
  { rewrite fields_fit_wide_header. apply fields_fit_forall. intros r Hr.
    destruct (O r Hr) as (p & t1 & start & Hp & R1 & R2 & ->).
    cbn [forallb]. rewrite fits_str_of_int by lia.
    apply fits_tl. rewrite fields_fit_forall in Fit. now apply Fit. }
  unfold read_usage, csv_reader. rewrite Fo. cbn [obind].
  destruct (pic_loop_total (out g) ([], [])) as ([times cd] & E); [|eauto].
  apply Forall_forall. intros r Hr. rewrite Forall_forall in F.
  split; [|split; [|now apply F]].
  - destruct (O r Hr) as (p & t1 & start & Hp & _ & _ & ->).
    apply in_map_iff in Hp as (n & <- & _). destruct wide; simpl; lia.
  - destruct (O r Hr) as (p & t1 & start & Hp & R1 & R2 & ->).
    unfold row_time. cbn [nth]. rewrite int_str_of_int by lia. discriminate.
Qed.
End PicFacts.

Lemma times_never_repeat_witness :
  read_usage (fun s => Some s) (header :: spec_rows) =
    Some ([0; 1; 0; 1]%Z, [("all", ["5.0"; "6.0"]); ("0", ["4.0"; "5.0"])]) /\
  Sorted (fun a b : Z => a <> b) [0; 1; 0; 1]%Z.
Proof.
  split; [vm_compute; reflexivity|].
  apply (times_never_repeat (fun s => Some s) (header :: spec_rows) [0; 1; 0; 1]%Z
           [("all", ["5.0"; "6.0"]); ("0", ["4.0"; "5.0"])]).
  vm_compute. reflexivity.
Defined.

Lemma usage_follows_series_witness :
  read_usage (fun s => Some s) (header :: spec_rows) =
    Some ([0; 1; 0; 1]%Z, [("all", ["5.0"; "6.0"]); ("0", ["4.0"; "5.0"])]) /\
  NoDup (map fst [("all", ["5.0"; "6.0"]); ("0", ["4.0"; "5.0"])]).
Proof.
  split; [vm_compute; reflexivity|].
  apply (usage_follows_series (fun s => Some s) header spec_rows [0; 1; 0; 1]%Z
           [("all", ["5.0"; "6.0"]); ("0", ["4.0"; "5.0"])]).
  vm_compute. reflexivity.
Defined.

Lemma chart_reads_emitted_table_witness :
  run spec_example = (0%Z, Some (header :: spec_rows)) /\
  exists times cd,
    read_usage (fun s => Some s) (header :: spec_rows) = Some (times, cd).
Proof.
  split; [vm_compute; reflexivity|].
  apply (chart_reads_emitted_table (fun s => Some s) spec_example
           (header :: spec_rows)).
  - vm_compute. reflexivity.
  - repeat constructor; discriminate.
Defined.

Lemma process_file_returns_iff_witness :
  exists f1,
    process_file {| log_file := []; csv_file := Some [header; ["08:00:01"; "all"]] |} =
    (Returned tt, f1).
Proof.
  apply (proj2 (process_file_returns_iff [] header [["08:00:01"; "all"]])).
  split; [discriminate|]. split; [reflexivity|].
  repeat constructor. vm_compute. discriminate.
Defined.
